(** * Student discipline tracking system: a shallow embedding of [app.py]

    The Flask application keeps three tables (user, student, offense) in a
    SQLite database behind SQLAlchemy.  Every route is embedded as a
    function from the database (and the request data the route reads) to a
    response and the database after the request's transaction.

    Conventions of the embedding:
    - a table is the list of its rows in the order they were inserted; a
      new row gets the rowid [1 + max], as SQLite does for an INTEGER
      PRIMARY KEY, so that along the requests this is also the rowid
      order;
    - a Python [str] is the byte string of its UTF-8 encoding; whitespace
      is Unicode whitespace, case mapping is the ASCII one, which is what
      SQLite's [lower] and [LIKE] implement;
    - SQLite stores integers on 64 bits: a larger integer bound to a
      statement makes the driver raise [OverflowError].  The embedding
      has this error where a request binds a number it was sent as data
      (the age of a student, the offset of a page); the id in the path of
      a route is looked up for the ids that fit, as all stored ids do,
      and what is proved of an id that is not stored is proved of those;
    - a Python [dict] is a [gmap]; [None] columns are [option]s;
    - the statements a request sends between two commits form one
      transaction, executed all or nothing;
    - the session of the logged-in user ([login_required]) and the
      templates are outside the embedding: a rendered page is the data
      handed to its template. *)

From Stdlib Require Import ZArith Ascii String.
From stdpp Require Import base decidable option list sorting gmap strings.

Local Open Scope Z_scope.

(** ** Strings as Python and SQLite see them *)

Definition is_upper (c : ascii) : bool :=
  let n := nat_of_ascii c in ((65 <=? n) && (n <=? 90))%nat.

Definition is_lower (c : ascii) : bool :=
  let n := nat_of_ascii c in ((97 <=? n) && (n <=? 122))%nat.

Definition lower_ascii (c : ascii) : ascii :=
  if is_upper c then ascii_of_nat (nat_of_ascii c + 32) else c.

Definition upper_ascii (c : ascii) : ascii :=
  if is_lower c then ascii_of_nat (nat_of_ascii c - 32) else c.

(** [str.lower()] and SQL [lower(x)]. *)
Fixpoint lower (s : string) : string :=
  match s with
  | EmptyString => EmptyString
  | String c s' => String (lower_ascii c) (lower s')
  end.

(** [str.capitalize()]: first character upper case, the rest lower case
    (the letters of the offense types the form lets through are ASCII). *)
Definition capitalize (s : string) : string :=
  match s with
  | EmptyString => EmptyString
  | String c s' => String (upper_ascii c) (lower s')
  end.

(** [str.isspace()] on a one-byte character: TAB, LF, VT, FF, CR, FS, GS,
    RS, US and the space. *)
Definition is_space (c : ascii) : bool :=
  let n := nat_of_ascii c in
  (((9 <=? n) && (n <=? 13)) || ((28 <=? n) && (n <=? 32)))%nat.

(** The whitespace characters encoded on two bytes: U+0085 and U+00A0. *)
Definition is_space2 (c1 c2 : ascii) : bool :=
  let n1 := nat_of_ascii c1 in
  let n2 := nat_of_ascii c2 in
  ((n1 =? 194) && ((n2 =? 133) || (n2 =? 160)))%nat.

(** Those encoded on three bytes: U+1680, U+2000 to U+200A, U+2028,
    U+2029, U+202F, U+205F and U+3000. *)
Definition is_space3 (c1 c2 c3 : ascii) : bool :=
  let n1 := nat_of_ascii c1 in
  let n2 := nat_of_ascii c2 in
  let n3 := nat_of_ascii c3 in
  (((n1 =? 225) && (n2 =? 154) && (n3 =? 128))
   || ((n1 =? 226) && (n2 =? 128)
       && (((128 <=? n3) && (n3 <=? 138)) || (n3 =? 168) || (n3 =? 169)
           || (n3 =? 175)))
   || ((n1 =? 226) && (n2 =? 129) && (n3 =? 159))
   || ((n1 =? 227) && (n2 =? 128) && (n3 =? 128)))%nat.

(** [str.lstrip()]: drops the leading whitespace characters. *)
Fixpoint lstrip (s : string) : string :=
  match s with
  | EmptyString => EmptyString
  | String c1 s1 =>
      if is_space c1 then lstrip s1
      else
        match s1 with
        | EmptyString => s
        | String c2 s2 =>
            if is_space2 c1 c2 then lstrip s2
            else
              match s2 with
              | EmptyString => s
              | String c3 s3 => if is_space3 c1 c2 c3 then lstrip s3 else s
              end
        end
  end.

(** The string holds whitespace characters only. *)
Fixpoint all_space (s : string) : bool :=
  match s with
  | EmptyString => true
  | String c1 s1 =>
      if is_space c1 then all_space s1
      else
        match s1 with
        | EmptyString => false
        | String c2 s2 =>
            if is_space2 c1 c2 then all_space s2
            else
              match s2 with
              | EmptyString => false
              | String c3 s3 => is_space3 c1 c2 c3 && all_space s3
              end
        end
  end.

(** [str.rstrip()]: drops the trailing whitespace, that is keeps a byte
    as long as something other than whitespace follows or starts there. *)
Fixpoint rstrip (s : string) : string :=
  match s with
  | EmptyString => EmptyString
  | String c s' => if all_space s then EmptyString else String c (rstrip s')
  end.

(** [str.strip()]. *)
Definition strip (s : string) : string := rstrip (lstrip s).

(** Python truthiness of a string. *)
Definition truthy (s : string) : bool :=
  match s with EmptyString => false | String _ _ => true end.

(** [x or default] on an optional string: [None] and the empty string are
    both falsy. *)
Definition str_or (x : option string) (dflt : string) : string :=
  match x with
  | Some s => if truthy s then s else dflt
  | None => dflt
  end.

(** Does the character occur in the string? *)
Fixpoint has_char (c : ascii) (s : string) : bool :=
  match s with
  | EmptyString => false
  | String d s' => Ascii.eqb c d || has_char c s'
  end.

(** ** SQL [LIKE]

    [%] matches any run of characters, [_] exactly one, every other
    pattern character itself.  No escape character is set by the
    application.  A character of the text is a byte below 128, or a
    leading byte (192 and above) with the continuation bytes (128 to 191)
    that follow it; no character starts at a continuation byte. *)
Definition is_continuation (c : ascii) : bool :=
  let n := nat_of_ascii c in ((128 <=? n) && (n <=? 191))%nat.

Definition is_leading (c : ascii) : bool := (192 <=? nat_of_ascii c)%nat.

Fixpoint skip_continuation (s : string) : string :=
  match s with
  | EmptyString => EmptyString
  | String c s' => if is_continuation c then skip_continuation s' else s
  end.

(** The text after its first character, when it starts with one. *)
Definition after_char (s : string) : option string :=
  match s with
  | EmptyString => None
  | String c s' =>
      if is_continuation c then None
      else Some (if is_leading c then skip_continuation s' else s')
  end.

Fixpoint like (pat : string) : string -> bool :=
  match pat with
  | EmptyString => fun s => negb (truthy s)
  | String p pat' =>
      if Ascii.eqb p "%" then
        fix any_run (s : string) : bool :=
          like pat' s ||
          match s with
          | EmptyString => false
          | String _ s' => any_run s'
          end
      else if Ascii.eqb p "_" then
        fun s =>
          match after_char s with
          | None => false
          | Some s' => like pat' s'
          end
      else
        fun s =>
          match s with
          | EmptyString => false
          | String c s' => Ascii.eqb p c && like pat' s'
          end
  end.

(** SQLAlchemy's [col.ilike(pat)] on SQLite: [lower(col) LIKE lower(pat)]. *)
Definition ilike (col pat : string) : bool := like (lower pat) (lower col).

(** On a nullable column the comparison with NULL is not true. *)
Definition ilike_null (col : option string) (pat : string) : bool :=
  match col with
  | Some s => ilike s pat
  | None => false
  end.

(** The spec's notion of a match: [t] occurs in [s] as a substring. *)
Definition contains (s t : string) : Prop :=
  exists pre post, s = pre +:+ t +:+ post.

Definition icontains (s t : string) : Prop := contains (lower s) (lower t).

(** ** Calendar dates ([datetime.date]) *)

Record date := Date { date_year : Z; date_month : Z; date_day : Z }.

Definition isleap (y : Z) : bool :=
  (y mod 4 =? 0) && (negb (y mod 100 =? 0) || (y mod 400 =? 0)).

(** [calendar.mdays]. *)
Definition mdays (m : Z) : Z :=
  if m =? 2 then 28
  else if (m =? 4) || (m =? 6) || (m =? 9) || (m =? 11) then 30
  else 31.

(** Second component of [calendar.monthrange(year, month)]; the first (the
    weekday of the first day) is discarded by the caller. *)
Definition monthrange_ndays (y m : Z) : Z :=
  mdays m + (if (m =? 2) && isleap y then 1 else 0).

Definition MINYEAR : Z := 1.
Definition MAXYEAR : Z := 9999.

(** The constructor [datetime(year, month, day)] raises [ValueError]
    ([None] here) outside the supported range. *)
Definition datetime (y m d : Z) : option date :=
  if (MINYEAR <=? y) && (y <=? MAXYEAR) && (1 <=? m) && (m <=? 12)
     && (1 <=? d) && (d <=? monthrange_ndays y m)
  then Some (Date y m d) else None.

(** Comparison of dates ([<=] on [date], and on the ISO text SQLite
    stores). *)
Definition date_leb (a b : date) : bool :=
  (date_year a <? date_year b) ||
  ((date_year a =? date_year b) &&
   ((date_month a <? date_month b) ||
    ((date_month a =? date_month b) && (date_day a <=? date_day b)))).

Definition digit_char (n : Z) : ascii := ascii_of_nat (48 + Z.to_nat (n mod 10)).

(** Decimal digits of [n], zero padded to [width] characters. *)
Fixpoint zero_padded (width : nat) (n : Z) : string :=
  match width with
  | O => EmptyString
  | S w => zero_padded w (n / 10) +:+ String (digit_char n) EmptyString
  end.

(** [%Y]: the year in decimal digits, without leading zeros (a date has a
    year from 1 to 9999). *)
Definition year_text (y : Z) : string :=
  if y <? 10 then zero_padded 1 y
  else if y <? 100 then zero_padded 2 y
  else if y <? 1000 then zero_padded 3 y
  else zero_padded 4 y.

(** [d.strftime('%Y-%m-%d')]: the month and the day on two digits. *)
Definition strftime_ymd (d : date) : string :=
  year_text (date_year d) +:+ "-" +:+ zero_padded 2 (date_month d)
  +:+ "-" +:+ zero_padded 2 (date_day d).

(** ** The persistence schema (the three [db.Model] classes) *)

Module User.
Record t := mk { id : Z; email : string; password_hash : string }.
End User.

Module Student.
Record t := mk {
    id : Z; name : string; age : Z; gender : string;
    grade_level : string; section : string; strand : string }.
End Student.

Module Offense.
Record t := mk {
    id : Z; student_id : Z; offense_type : string; category : string;
    subtype : option string; date : date; description : option string }.
End Offense.

Record db := Db {
  user_table : list User.t;
  student_table : list Student.t;
  offense_table : list Offense.t }.

(** The database right after [db.create_all()]. *)
Definition empty_db : db := Db [] [] [].

(** The rowid SQLite gives the next row of a table with these rowids. *)
Definition next_rowid (ids : list Z) : Z := 1 + foldr Z.max 0 ids.

(** SQLite stores an integer on 64 bits: the driver raises
    [OverflowError] when a statement binds one outside of them. *)
Definition sqlite_int (n : Z) : bool := (- 2 ^ 63 <=? n) && (n <=? 2 ^ 63 - 1).

(** [Model.query.get(id)]: the row with that primary key, for an id that
    fits ([sqlite_int]), as the ids of all rows do. *)
Definition load_user (st : db) (user_id : Z) : option User.t :=
  head (filter (λ u, User.id u = user_id) (user_table st)).
Definition get_student (st : db) (i : Z) : option Student.t :=
  head (filter (λ s, Student.id s = i) (student_table st)).
Definition get_offense (st : db) (i : Z) : option Offense.t :=
  head (filter (λ o, Offense.id o = i) (offense_table st)).

(** ** Statements and transactions

    What the session sends to the database, in the order it sends it.
    [None] is an error raised by the statement: an [IntegrityError] of
    the database, an [OverflowError] of the driver. *)
Inductive stmt :=
| InsertUser (email password_hash : string)
| InsertStudent (name : string) (age : Z) (gender grade_level section strand : string)
| UpdateStudent (id : Z) (name : string) (age : Z)
                (gender grade_level section strand : string)
| BulkDeleteOffenses (student_id : Z)
| DeleteStudent (id : Z)
| InsertOffense (student_id : Z) (offense_type category : string)
                (subtype : option string) (d : date) (description : option string)
| DeleteOffense (id : Z).

Definition exec (s : stmt) (st : db) : option db :=
  match s with
  | InsertUser e h =>
      (* [email] is declared [unique=True] *)
      if decide (e ∈ User.email <$> user_table st) then None
      else Some (Db (user_table st
                       ++ [User.mk (next_rowid (User.id <$> user_table st)) e h])
                    (student_table st) (offense_table st))
  | InsertStudent n a g gl sec str =>
      (* [age] is an [Integer] column *)
      if sqlite_int a
      then Some (Db (user_table st)
                    (student_table st
                       ++ [Student.mk (next_rowid (Student.id <$> student_table st))
                             n a g gl sec str])
                    (offense_table st))
      else None
  | UpdateStudent i n a g gl sec str =>
      if sqlite_int a
      then Some (Db (user_table st)
                    ((λ s, if decide (Student.id s = i)
                           then Student.mk i n a g gl sec str else s)
                       <$> student_table st)
                    (offense_table st))
      else None
  | BulkDeleteOffenses sid =>
      Some (Db (user_table st) (student_table st)
               (filter (λ o, Offense.student_id o ≠ sid) (offense_table st)))
  | DeleteStudent i =>
      (* The [offenses] relationship has no delete cascade: the ORM sets
         the [student_id] of the offenses still attached to NULL, which
         the NOT NULL column refuses. *)
      if decide (i ∈ Offense.student_id <$> offense_table st) then None
      else Some (Db (user_table st)
                    (filter (λ s, Student.id s ≠ i) (student_table st))
                    (offense_table st))
  | InsertOffense sid ty cat sub d desc =>
      Some (Db (user_table st) (student_table st)
               (offense_table st
                  ++ [Offense.mk (next_rowid (Offense.id <$> offense_table st))
                        sid ty cat sub d desc]))
  | DeleteOffense i =>
      Some (Db (user_table st) (student_table st)
               (filter (λ o, Offense.id o ≠ i) (offense_table st)))
  end.

(** The database states inside a transaction, one after each statement
    that went through. *)
Fixpoint transaction_states (ss : list stmt) (st : db) : list db :=
  match ss with
  | [] => []
  | s :: ss' =>
      match exec s st with
      | Some st' => st' :: transaction_states ss' st'
      | None => []
      end
  end.

(** A transaction: every statement goes through, or none is applied. *)
Fixpoint transaction (ss : list stmt) (st : db) : option db :=
  match ss with
  | [] => Some st
  | s :: ss' => exec s st ≫= transaction ss'
  end.

(** ** Responses *)

Record Pagination := mkPagination {
  items : list Offense.t; page : Z; per_page : Z; total : Z }.

Record CalendarPage := mkCalendarPage {
  cal_student : Student.t;
  cal_year : Z;
  cal_month : Z;
  cal_offense_dates : gmap Z (list string);
  cal_prev_month : Z;
  cal_prev_year : Z;
  cal_next_month : Z;
  cal_next_year : Z }.

Inductive body :=
| RegisterHtml
| LoginHtml
| StudentsHtml (students : list Student.t)
| StudentFormHtml (title : string)
| OffensesHtml (student : Student.t) (offenses : list Offense.t)
| OffenseFormHtml (student : Student.t)
| CalendarHtml (c : CalendarPage)
| AllOffensesHtml (pagination : Pagination) (search : string).

Inductive response :=
| Render (flashed : option string) (b : body)
| Redirect (flashed : option string) (endpoint : string) (arg : option Z)
| LoginAndRedirect (user : User.t) (endpoint : string)
| NotFound
| InternalError.

(** [db.session.commit()] at the end of a request that issued [ss]. *)
Definition commit (ss : list stmt) (st : db) (ok : response) : response * db :=
  match transaction ss st with
  | Some st' => (ok, st')
  | None => (InternalError, st)
  end.

(** ** Forms (the [FlaskForm] classes) *)

(** The [DataRequired] validator on a text field: the data is truthy and
    not only whitespace. *)
Definition data_required (s : string) : bool := truthy s && truthy (strip s).

(** A [SelectField] accepts only the values of its choices. *)
Definition in_choices (choices : list string) (s : string) : bool :=
  bool_decide (s ∈ choices).

Module LoginForm.
Record t := mk { email : string; password : string }.
End LoginForm.

Module RegisterForm.
Record t := mk { email : string; password : string }.
End RegisterForm.

Module StudentForm.
(** [age] is an [IntegerField]: [None] when the input is not an integer. *)
Record t := mk {
  name : string; age : option Z; gender : string;
  grade_level : string; section : string; strand : string }.

Definition gender_choices : list string := ["Male"; "Female"].
Definition grade_level_choices : list string := ["11"; "12"].
Definition section_choices : list string := ["A"; "B"; "C"; "D"; "E"; "F"].
Definition strand_choices : list string := ["STEM"; "HUMSS"; "ABM"].

(** The integer of [age] when [DataRequired] accepts it: 0 is falsy. *)
Definition age_data (f : t) : option Z :=
  match age f with
  | Some a => if decide (a = 0) then None else Some a
  | None => None
  end.

Definition validate (f : t) : bool :=
  data_required (name f) && bool_decide (is_Some (age_data f))
  && data_required (gender f) && in_choices gender_choices (gender f)
  && data_required (grade_level f) && in_choices grade_level_choices (grade_level f)
  && data_required (section f) && in_choices section_choices (section f)
  && data_required (strand f) && in_choices strand_choices (strand f).
End StudentForm.

Module OffenseForm.
(** [date] is a [DateField]: [None] when the input is not a date;
    [subtype] and [description] are [None] when the field is not posted. *)
Record t := mk {
  offense_type : string; category : string; subtype : option string;
  date : option date; description : option string }.

Definition offense_type_choices : list string := ["warning"; "minor"; "major"].
Definition category_choices : list string :=
  [EmptyString; "Academic"; "Behavioral"; "Attendance"; "Uniform";
   "Property"; "Safety"; "Other"].

Definition validate (f : t) : bool :=
  data_required (offense_type f) && in_choices offense_type_choices (offense_type f)
  && data_required (category f) && in_choices category_choices (category f)
  && bool_decide (is_Some (date f)).
End OffenseForm.

(** ** Account store: [register], [login] *)

Section Accounts.
(** The [Email()] validator of wtforms. *)
Variable email_ok : string -> bool.
(** werkzeug's hash: the method tag written into the stored value, and
    the digest [_hash_internal(method, salt, password)]. *)
Variable hash_method : string.
Variable digest : string -> string -> string -> string.

Definition validate_register (f : RegisterForm.t) : bool :=
  data_required (RegisterForm.email f) && email_ok (RegisterForm.email f)
  && data_required (RegisterForm.password f).

Definition validate_login (f : LoginForm.t) : bool :=
  data_required (LoginForm.email f) && email_ok (LoginForm.email f)
  && data_required (LoginForm.password f).

(** [generate_password_hash(password)] with the salt [gen_salt] drew:
    the text [method$salt$digest]. *)
Definition generate_password_hash (salt password : string) : string :=
  hash_method +:+ "$" +:+ salt +:+ "$" +:+ digest hash_method salt password.

(** [s.split("$", 1)]: the text before and after the first dollar sign. *)
Fixpoint split_dollar (s : string) : option (string * string) :=
  match s with
  | EmptyString => None
  | String c s' =>
      if Ascii.eqb c "$" then Some (EmptyString, s')
      else match split_dollar s' with
           | Some (a, b) => Some (String c a, b)
           | None => None
           end
  end.

(** [check_password_hash(pwhash, password)]: [pwhash.split("$", 2)] must
    give three parts; the digest is recomputed with the stored method and
    salt and compared. *)
Definition check_password_hash (pwhash password : string) : bool :=
  match split_dollar pwhash with
  | Some (method, rest) =>
      match split_dollar rest with
      | Some (salt, hashval) => bool_decide (digest method salt password = hashval)
      | None => false
      end
  | None => false
  end.

Definition check_password (u : User.t) (password : string) : bool :=
  check_password_hash (User.password_hash u) password.

(** [User.query.filter_by(email=e).first()]. *)
Definition user_by_email (st : db) (e : string) : option User.t :=
  head (filter (λ u, User.email u = e) (user_table st)).

Definition register (salt : string) (form : RegisterForm.t) (st : db)
  : response * db :=
  if validate_register form then
    match user_by_email st (RegisterForm.email form) with
    | Some _ => (Redirect (Some "Email already registered.") "register" None, st)
    | None =>
        commit [InsertUser (RegisterForm.email form)
                  (generate_password_hash salt (RegisterForm.password form))]
          st (Redirect (Some "Registration successful. Please log in.") "login" None)
    end
  else (Render None RegisterHtml, st).

Definition login (form : LoginForm.t) (st : db) : response :=
  if validate_login form then
    match user_by_email st (LoginForm.email form) with
    | Some user =>
        if check_password user (LoginForm.password form)
        then LoginAndRedirect user "students"
        else Render (Some "Invalid email or password.") LoginHtml
    | None => Render (Some "Invalid email or password.") LoginHtml
    end
  else Render None LoginHtml.

End Accounts.

(** The three answers of the account store the spec names: success of a
    registration, [DuplicateError], [InvalidCredentials]. *)
Definition registered_ok : response :=
  Redirect (Some "Registration successful. Please log in.") "login" None.
Definition already_registered : response :=
  Redirect (Some "Email already registered.") "register" None.
Definition invalid_credentials : response :=
  Render (Some "Invalid email or password.") LoginHtml.

(** ** [ORDER BY]

    A stable insertion sort: rows with equal keys keep the storage order. *)
Fixpoint insert_by {A} (le : A -> A -> bool) (x : A) (l : list A) : list A :=
  match l with
  | [] => [x]
  | y :: l' => if le x y then x :: l else y :: insert_by le x l'
  end.

Definition order_by {A} (le : A -> A -> bool) (l : list A) : list A :=
  foldr (insert_by le) [] l.

(** ** Roster and offense routes *)

(** [Student.query.all()]: without [ORDER BY], SQLite scans the table in
    the order of the rowid, which is the [id]. *)
Definition by_id (a b : Student.t) : bool := Student.id a <=? Student.id b.

Definition students (st : db) : response :=
  Render None (StudentsHtml (order_by by_id (student_table st))).

Definition add_student (form : StudentForm.t) (st : db) : response * db :=
  match StudentForm.validate form, StudentForm.age_data form with
  | true, Some a =>
      commit [InsertStudent (StudentForm.name form) a (StudentForm.gender form)
                (StudentForm.grade_level form) (StudentForm.section form)
                (StudentForm.strand form)]
        st (Redirect (Some "Student added successfully.") "students" None)
  | _, _ => (Render None (StudentFormHtml "Add Student"), st)
  end.

Definition edit_student (id : Z) (form : StudentForm.t) (st : db) : response * db :=
  match get_student st id with
  | None => (NotFound, st)
  | Some student =>
      match StudentForm.validate form, StudentForm.age_data form with
      | true, Some a =>
          commit [UpdateStudent (Student.id student) (StudentForm.name form) a
                    (StudentForm.gender form) (StudentForm.grade_level form)
                    (StudentForm.section form) (StudentForm.strand form)]
            st (Redirect (Some "Student updated successfully.") "students" None)
      | _, _ => (Render None (StudentFormHtml "Edit Student"), st)
      end
  end.

(** The statements [delete_student] issues before its commit: the bulk
    delete runs at once, the session's delete of the student at the flush. *)
Definition delete_student_stmts (id : Z) : list stmt :=
  [BulkDeleteOffenses id; DeleteStudent id].

Definition delete_student (id : Z) (st : db) : response * db :=
  match get_student st id with
  | None => (NotFound, st)
  | Some student =>
      commit (delete_student_stmts id) st
        (Redirect (Some "Student deleted successfully.") "students" None)
  end.

(** [Offense.query.filter_by(student_id=id).all()]. *)
Definition offenses_of (st : db) (id : Z) : list Offense.t :=
  filter (λ o, Offense.student_id o = id) (offense_table st).

Definition offenses (id : Z) (st : db) : response :=
  match get_student st id with
  | None => NotFound
  | Some student => Render None (OffensesHtml student (offenses_of st id))
  end.

Definition add_offense (id : Z) (form : OffenseForm.t) (st : db) : response * db :=
  match get_student st id with
  | None => (NotFound, st)
  | Some student =>
      match OffenseForm.validate form, OffenseForm.date form with
      | true, Some d =>
          commit [InsertOffense (Student.id student) (OffenseForm.offense_type form)
                    (OffenseForm.category form) (OffenseForm.subtype form) d
                    (OffenseForm.description form)]
            st (Redirect (Some "Offense added successfully.") "offenses"
                  (Some (Student.id student)))
      | _, _ => (Render None (OffenseFormHtml student), st)
      end
  end.

Definition delete_offense (id : Z) (st : db) : response * db :=
  match get_offense st id with
  | None => (NotFound, st)
  | Some offense =>
      let student_id := Offense.student_id offense in
      commit [DeleteOffense id] st
        (Redirect (Some "Offense deleted successfully.") "offenses" (Some student_id))
  end.

(** ** Aggregates: [offenses_by_type_grade], [offenses_by_gender_grade] *)

(** [FROM student JOIN offense ON student.id = offense.student_id]. *)
Definition student_join_offense (st : db) : list (Student.t * Offense.t) :=
  s ← student_table st;
  o ← offense_table st;
  if decide (Student.id s = Offense.student_id o) then [(s, o)] else [].

(** [GROUP BY] with [count]: one row per distinct key, with the number of
    rows that have it. *)
Definition group_count (keys : list (string * string)) : list (string * string * nat) :=
  (λ k, (k.1, k.2, length (filter (λ k', k' = k) keys))) <$> remove_dups keys.

(** One turn of the loop over the grouped rows:
    [if grade not in data: data[grade] = zeros], then
    [data[grade][key] = count]. *)
Definition tally (zeros : gmap string nat) (data : gmap string (gmap string nat))
    (row : string * string * nat) : gmap string (gmap string nat) :=
  let '(grade, key, count) := row in
  let data' := match data !! grade with
               | None => <[grade := zeros]> data
               | Some _ => data
               end in
  <[grade := <[key := count]> (default ∅ (data' !! grade))]> data'.

Definition type_zeros : gmap string nat :=
  <["major" := 0%nat]> (<["minor" := 0%nat]> (<["warning" := 0%nat]> ∅)).

Definition gender_zeros : gmap string nat :=
  <["Female" := 0%nat]> (<["Male" := 0%nat]> ∅).

Definition type_grade_results (st : db) : list (string * string * nat) :=
  group_count ((λ so, (Student.grade_level so.1, Offense.offense_type so.2))
                 <$> student_join_offense st).

Definition gender_grade_results (st : db) : list (string * string * nat) :=
  group_count ((λ so, (Student.grade_level so.1, Student.gender so.1))
                 <$> student_join_offense st).

(** The mapping [jsonify] serialises. *)
Definition offenses_by_type_grade (st : db) : gmap string (gmap string nat) :=
  foldl (tally type_zeros) ∅ (type_grade_results st).

Definition offenses_by_gender_grade (st : db) : gmap string (gmap string nat) :=
  foldl (tally gender_zeros) ∅ (gender_grade_results st).

(** [order_by(Offense.date)] and [order_by(Offense.date.desc())]. *)
Definition date_asc (a b : Offense.t) : bool :=
  date_leb (Offense.date a) (Offense.date b).
Definition date_desc (a b : Offense.t) : bool :=
  date_leb (Offense.date b) (Offense.date a).

(** ** The calendar view *)

(** The text shown for one offense. *)
Definition detail (o : Offense.t) : string :=
  capitalize (Offense.offense_type o) +:+ " - "
  +:+ str_or (Offense.description o) "No description"
  +:+ " (" +:+ strftime_ymd (Offense.date o) +:+ ")".

(** [offense_dates[day].append(detail)] on a [defaultdict(list)]. *)
Definition append_detail (m : gmap Z (list string)) (o : Offense.t)
  : gmap Z (list string) :=
  let day := date_day (Offense.date o) in
  <[day := default [] (m !! day) ++ [detail o]]> m.

(** The query of [calendar_view]: the student's offenses dated from
    [start_date] to [end_date], by date. *)
Definition calendar_query (st : db) (id : Z) (start_date end_date : date)
  : list Offense.t :=
  order_by date_asc
    (filter (λ o, Offense.student_id o = id
                  ∧ date_leb start_date (Offense.date o) = true
                  ∧ date_leb (Offense.date o) end_date = true)
       (offense_table st)).

(** [now] is the reading of [datetime.now()]; [year_arg] and [month_arg]
    are the query parameters read with [type=int] ([None] when absent or
    not an integer).  The values computed for the template only
    ([month_days], [month_name]) are left out of the page. *)
Definition calendar_view (now : date) (id : Z) (year_arg month_arg : option Z)
    (st : db) : response :=
  match get_student st id with
  | None => NotFound
  | Some student =>
      let year := default (date_year now) year_arg in
      let month := default (date_month now) month_arg in
      let month := if (month <? 1) || (month >? 12) then date_month now else month in
      match datetime year month 1 with
      | None => InternalError
      | Some start_date =>
          let last_day := monthrange_ndays year month in
          match datetime year month last_day with
          | None => InternalError
          | Some end_date =>
              let offenses := calendar_query st id start_date end_date in
              let offense_dates := foldl append_detail ∅ offenses in
              let prev_month := if month >? 1 then month - 1 else 12 in
              let prev_year := if month >? 1 then year else year - 1 in
              let next_month := if month <? 12 then month + 1 else 1 in
              let next_year := if month <? 12 then year else year + 1 in
              Render None
                (CalendarHtml
                   (mkCalendarPage student year month offense_dates
                      prev_month prev_year next_month next_year))
          end
      end
  end.

(** ** Search over all offenses *)

(** [Offense.query.join(Student)]: the join on the foreign key. *)
Definition offense_join_student (st : db) : list (Offense.t * Student.t) :=
  o ← offense_table st;
  s ← student_table st;
  if decide (Offense.student_id o = Student.id s) then [(o, s)] else [].

(** The [or_] of the three [ilike] conditions. *)
Definition search_filter (search_term : string) (os : Offense.t * Student.t) : bool :=
  ilike (Student.name os.2) search_term
  || ilike_null (Offense.description os.1) search_term
  || ilike (Offense.offense_type os.1) search_term.

(** The rows of the query before pagination. *)
Definition all_offenses_query (search : string) (st : db) : list Offense.t :=
  let joined := offense_join_student st in
  let filtered :=
    if truthy search
    then filter (λ os, search_filter ("%" +:+ search +:+ "%") os = true) joined
    else joined in
  order_by date_desc (fst <$> filtered).

(** [query.paginate(page=page, per_page=per_page, error_out=False)]: a
    page below 1 becomes page 1, a page past the end is empty.  The query
    of the items binds [(page - 1) * per_page] as its [OFFSET], which
    raises [OverflowError] ([None] here) beyond 64 bits. *)
Definition paginate (rows : list Offense.t) (page per_page : Z) : option Pagination :=
  let page := if page <? 1 then 1 else page in
  let offset := (page - 1) * per_page in
  if sqlite_int offset
  then Some (mkPagination
               (take (Z.to_nat per_page) (drop (Z.to_nat offset) rows))
               page per_page (Z.of_nat (length rows)))
  else None.

(** [search_arg] is the raw [search] parameter (empty when absent),
    [page_arg] the [page] parameter read with [type=int]. *)
Definition all_offenses (search_arg : string) (page_arg : option Z) (st : db)
  : response :=
  let search := strip search_arg in
  let page := default 1 page_arg in
  let per_page := 20 in
  match paginate (all_offenses_query search st) page per_page with
  | Some pagination => Render None (AllOffensesHtml pagination search)
  | None => InternalError
  end.

(** The items of the response of [all_offenses]. *)
Definition page_items (r : response) : option (list Offense.t) :=
  match r with
  | Render _ (AllOffensesHtml pagination _) => Some (items pagination)
  | _ => None
  end.

(** ** Histories of requests *)

(** The requests that change the student and offense tables. *)
Inductive request :=
| AddStudent (form : StudentForm.t)
| EditStudent (id : Z) (form : StudentForm.t)
| DeleteStudentReq (id : Z)
| AddOffense (id : Z) (form : OffenseForm.t)
| DeleteOffenseReq (id : Z).

Definition serve (st : db) (r : request) : db :=
  match r with
  | AddStudent f => (add_student f st).2
  | EditStudent i f => (edit_student i f st).2
  | DeleteStudentReq i => (delete_student i st).2
  | AddOffense i f => (add_offense i f st).2
  | DeleteOffenseReq i => (delete_offense i st).2
  end.

(** The database after the requests [rs], served in order on a fresh
    database. *)
Definition history (rs : list request) : db := foldl serve empty_db rs.

(** ** Invariants *)

(** Referential integrity: every offense belongs to a stored student. *)
Definition ref_integrity (st : db) : Prop :=
  ∀ o, o ∈ offense_table st → Offense.student_id o ∈ Student.id <$> student_table st.

(** ** What the calendar and the search are meant to return *)

(** The details a calendar response shows for a day. *)
Definition calendar_day (r : response) (dd : Z) : option (list string) :=
  match r with
  | Render _ (CalendarHtml c) => cal_offense_dates c !! dd
  | _ => None
  end.

(** The date lies in the given month: from its first to its last day. *)
Definition in_month (y m : Z) (x : date) : Prop :=
  date_year x = y ∧ date_month x = m
  ∧ 1 ≤ date_day x ≤ monthrange_ndays y m.

#[global] Instance in_month_dec y m x : Decision (in_month y m x).
Proof. unfold in_month. apply _. Defined.

(** The month [calendar_view] shows for a [month] parameter: the current
    one when the parameter is absent or outside 1..12. *)
Definition shown_month (now : date) (month_arg : option Z) : Z :=
  let month := default (date_month now) month_arg in
  if (month <? 1) || (month >? 12) then date_month now else month.

(** The page [calendar_view] renders for a student, a year and a month. *)
Definition calendar_page (st : db) (student : Student.t) (id year month : Z)
  : CalendarPage :=
  mkCalendarPage student year month
    (foldl append_detail ∅
       (calendar_query st id (Date year month 1)
          (Date year month (monthrange_ndays year month))))
    (if month >? 1 then month - 1 else 12)
    (if month >? 1 then year else year - 1)
    (if month <? 12 then month + 1 else 1)
    (if month <? 12 then year else year + 1).

(** The detail text as the spec writes it: an em dash (the three bytes
    E2 80 94) between the type and the description, and the date as
    YYYY-MM-DD. *)
Definition em_dash : string :=
  String (ascii_of_nat 226) (String (ascii_of_nat 128)
    (String (ascii_of_nat 148) EmptyString)).

Definition spec_detail (o : Offense.t) : string :=
  capitalize (Offense.offense_type o) +:+ " " +:+ em_dash +:+ " "
  +:+ str_or (Offense.description o) "No description"
  +:+ " (" +:+ zero_padded 4 (date_year (Offense.date o))
  +:+ "-" +:+ zero_padded 2 (date_month (Offense.date o))
  +:+ "-" +:+ zero_padded 2 (date_day (Offense.date o)) +:+ ")".

(** The number of rows before the page a [page] parameter asks for, 20
    rows a page: an absent parameter or one below 1 is page 1. *)
Definition rows_before (page_arg : option Z) : nat :=
  let page := Z.max 1 (default 1 page_arg) in (20 * (Z.to_nat page - 1))%nat.

(** That number fits a 64-bit integer. *)
Definition page_fits (page_arg : option Z) : bool :=
  sqlite_int (Z.of_nat (rows_before page_arg)).

(** Substring containment, decided. *)
Fixpoint prefix_b (t s : string) : bool :=
  match t with
  | EmptyString => true
  | String c t' =>
      match s with
      | EmptyString => false
      | String c' s' => Ascii.eqb c c' && prefix_b t' s'
      end
  end.

Fixpoint contains_b (s t : string) : bool :=
  prefix_b t s ||
  match s with
  | EmptyString => false
  | String _ s' => contains_b s' t
  end.


(** The offense matches the term as the spec words it: the owner's name,
    the description or the offense type contains the term, whatever the
    case. *)
Definition spec_match (t : string) (o : Offense.t) (s : Student.t) : Prop :=
  icontains (Student.name s) t
  ∨ (∃ dsc, Offense.description o = Some dsc ∧ icontains dsc t)
  ∨ icontains (Offense.offense_type o) t.

(** ** What the aggregates are meant to count *)

(** The offenses of type [ty] whose owner is in grade [g]. *)
Definition count_by_type (st : db) (g ty : string) : nat :=
  length (filter (λ so, Student.grade_level so.1 = g ∧ Offense.offense_type so.2 = ty)
            (student_join_offense st)).

(** The offenses whose owner is in grade [g] and of gender [x]. *)
Definition count_by_gender (st : db) (g x : string) : nat :=
  length (filter (λ so, Student.grade_level so.1 = g ∧ Student.gender so.1 = x)
            (student_join_offense st)).

(** A grade has an offense when some offense row belongs to a student row
    of that grade. *)
Definition grade_has_offense (st : db) (g : string) : Prop :=
  ∃ s o, s ∈ student_table st ∧ o ∈ offense_table st
         ∧ Student.id s = Offense.student_id o ∧ Student.grade_level s = g.

(** The inner dictionary of one grade: the zero-filled one, overwritten by
    the grouped rows of that grade in turn. *)
Definition overwrite (g : string) (m : gmap string nat)
    (r : string * string * nat) : gmap string nat :=
  if decide (r.1.1 = g) then <[r.1.2 := r.2]> m else m.

Definition inner_of (zeros : gmap string nat) (g : string)
    (rows : list (string * string * nat)) : gmap string nat :=
  foldl (overwrite g) zeros rows.

(** ** Sample databases *)

Definition ymd (y m dd : Z) : date := Date y m dd.

Definition ana : Student.t := Student.mk 1 "Ana Smith" 16 "Female" "11" "A" "STEM".
Definition ben : Student.t := Student.mk 2 "Ben Cruz" 17 "Male" "12" "B" "ABM".
Definition cy : Student.t := Student.mk 3 "Cy Lim" 17 "Male" "12" "C" "HUMSS".

Definition no_id : Offense.t :=
  Offense.mk 1 1 "warning" "Uniform" None (ymd 2024 3 4) (Some "No ID").
Definition fight : Offense.t :=
  Offense.mk 2 1 "major" "Behavioral" (Some "Fight") (ymd 2024 3 15) (Some "Fight").
Definition absence : Offense.t :=
  Offense.mk 3 2 "minor" "Attendance" None (ymd 2024 3 15) None.
Definition late : Offense.t :=
  Offense.mk 4 1 "warning" "Academic" None (ymd 2024 4 1) (Some EmptyString).

(** Two warnings and one major for grade 11, one minor for grade 12; the
    third student has no offense. *)
Definition sample_db : db := Db [] [ana; ben; cy] [no_id; fight; absence; late].

(** An offense dated in the year 999, which the date field of the form
    accepts. *)
Definition quarrel : Offense.t :=
  Offense.mk 1 1 "minor" "Behavioral" None (ymd 999 1 5) (Some "Quarrel").
Definition old_db : db := Db [] [ana] [quarrel].

(** The result the spec gives for that fixture. *)
Definition sample_by_type_grade : gmap string (gmap string nat) :=
  <["11" := <["warning" := 2%nat]> (<["minor" := 0%nat]> (<["major" := 1%nat]> ∅))]>
    (<["12" := <["warning" := 0%nat]> (<["minor" := 1%nat]> (<["major" := 0%nat]> ∅))]> ∅).

(** A database with values outside the forms' choices: an offense type
    [Severe], a gender [Other], and a grade 10 student without offenses. *)
Definition odd_db : db :=
  Db []
     [Student.mk 1 "Dee Tan" 16 "Other" "11" "A" "STEM";
      Student.mk 2 "Eli Uy" 15 "Male" "10" "B" "ABM"]
     [Offense.mk 1 1 "Severe" "Other" None (ymd 2024 5 2) None].

Definition odd_by_type_grade : gmap string (gmap string nat) :=
  <["11" := <["Severe" := 1%nat]> type_zeros]> ∅.

Definition odd_by_gender_grade : gmap string (gmap string nat) :=
  <["11" := <["Other" := 1%nat]> gender_zeros]> ∅.

(** Stand-ins for the parameters of the account store, to run it on
    examples: every address passes, and the digest is the salt followed by
    the password. *)
Definition any_email (e : string) : bool := true.
Definition sample_method : string := "scrypt:32768:8:1".
Definition sample_digest (method salt password : string) : string :=
  salt +:+ ":" +:+ password.

Definition sample_form : RegisterForm.t := RegisterForm.mk "staff@school.edu" "s3cret".

(** The clock reading used in the examples. *)
Definition sample_now : date := ymd 2024 3 20.

(** The database after the sample registration. *)
Definition sample_salt : string := "NaCl16bytesOfSalt".
Definition sample_registered : db :=
  (register any_email sample_method sample_digest sample_salt sample_form empty_db).2.

(** ** Rows the forms let through *)

(** The row [add_student] and [edit_student] store for a form and an age. *)
Definition student_of_form (id : Z) (f : StudentForm.t) (a : Z) : Student.t :=
  Student.mk id (StudentForm.name f) a (StudentForm.gender f)
    (StudentForm.grade_level f) (StudentForm.section f) (StudentForm.strand f).

(** The row [add_offense] stores for a student, a form and a date. *)
Definition offense_of_form (id student_id : Z) (f : OffenseForm.t) (dt : date)
  : Offense.t :=
  Offense.mk id student_id (OffenseForm.offense_type f) (OffenseForm.category f)
    (OffenseForm.subtype f) dt (OffenseForm.description f).

(** A student row whose fields pass [StudentForm]. *)
Definition valid_student (s : Student.t) : Prop :=
  Student.name s ≠ EmptyString ∧ Student.age s ≠ 0
  ∧ Student.gender s ∈ StudentForm.gender_choices
  ∧ Student.grade_level s ∈ StudentForm.grade_level_choices
  ∧ Student.section s ∈ StudentForm.section_choices
  ∧ Student.strand s ∈ StudentForm.strand_choices.

(** An offense row whose fields pass [OffenseForm]: the category is one
    of the choices but not the empty placeholder. *)
Definition valid_offense (o : Offense.t) : Prop :=
  Offense.offense_type o ∈ OffenseForm.offense_type_choices
  ∧ Offense.category o ∈ OffenseForm.category_choices
  ∧ Offense.category o ≠ EmptyString.

(** What every database reached through the routes satisfies: offenses
    belong to stored students, ids ascend along both tables, and the
    stored fields are those the forms accept. *)
Definition well_formed (st : db) : Prop :=
  ref_integrity st
  ∧ StronglySorted Z.lt (Student.id <$> student_table st)
  ∧ StronglySorted Z.lt (Offense.id <$> offense_table st)
  ∧ Forall valid_student (student_table st)
  ∧ Forall valid_offense (offense_table st).

(** The database after a series of registrations, each with the salt
    drawn for it. *)
Definition registrations (email_ok : string -> bool) (hash_method : string)
    (digest : string -> string -> string -> string)
    (rs : list (string * RegisterForm.t)) (st : db) : db :=
  foldl (λ st r, (register email_ok hash_method digest r.1 r.2 st).2) st rs.

(** The sum of the counts of grouped rows. *)
Definition sum_counts (rows : list (string * string * nat)) : nat :=
  foldr (λ r acc, (r.2 + acc)%nat) 0%nat rows.

(** The page of a calendar response. *)
Definition calendar_page_of (r : response) : option CalendarPage :=
  match r with
  | Render _ (CalendarHtml c) => Some c
  | _ => None
  end.

(** A valid student form and a valid offense form for the examples. *)
Definition dan_form : StudentForm.t :=
  StudentForm.mk "Dan Go" (Some 17) "Male" "12" "D" "ABM".
Definition tardy_form : OffenseForm.t :=
  OffenseForm.mk "minor" "Attendance" (Some "Tardy") (Some (ymd 2024 3 21))
    (Some "Late for class").

(** * Properties *)

(** ** Lookups by primary key *)

Lemma get_student_Some st i s :
  get_student st i = Some s → s ∈ student_table st ∧ Student.id s = i.
Proof.
  unfold get_student. intros H.
  apply head_Some_elem_of, list_elem_of_filter in H. tauto.
Qed.

Lemma get_student_is_Some st i :
  is_Some (get_student st i) ↔ i ∈ Student.id <$> student_table st.
Proof.
  unfold get_student. split.
  - intros [s Hs]. apply head_Some_elem_of, list_elem_of_filter in Hs as [<- Hs].
    by apply list_elem_of_fmap_2.
  - intros (s & -> & Hs)%list_elem_of_fmap.
    destruct (filter _ _) as [|x l] eqn:E; [|by eexists].
    exfalso. eapply (filter_nil_not_elem_of _ _ s E); done.
Qed.

Lemma get_offense_is_Some st i :
  is_Some (get_offense st i) ↔ i ∈ Offense.id <$> offense_table st.
Proof.
  unfold get_offense. split.
  - intros [s Hs]. apply head_Some_elem_of, list_elem_of_filter in Hs as [<- Hs].
    by apply list_elem_of_fmap_2.
  - intros (s & -> & Hs)%list_elem_of_fmap.
    destruct (filter _ _) as [|x l] eqn:E; [|by eexists].
    exfalso. eapply (filter_nil_not_elem_of _ _ s E); done.
Qed.

Lemma filter_ne_no_id {A} (f : A → Z) (i : Z) (l : list A) :
  filter (λ x, f x = i) (filter (λ x, f x ≠ i) l) = [].
Proof.
  induction l as [|x l IH]; [done|].
  rewrite filter_cons. destruct (decide (f x ≠ i)); [|done].
  rewrite filter_cons. destruct (decide (f x = i)); [done|]. exact IH.
Qed.

(** ** Deleting an offense *)

(** C8: for an existing offense id, the first [delete_offense] succeeds
    (a redirect to the owner's offense list, the row removed, nothing else
    changed), the second one on the same id is a 404 and leaves the
    database as the first call left it. *)
Theorem delete_offense_twice (st : db) (id : Z) :
  is_Some (get_offense st id) →
  ∃ sid st',
    delete_offense id st
      = (Redirect (Some "Offense deleted successfully.") "offenses" (Some sid), st')
    ∧ st' = Db (user_table st) (student_table st)
               (filter (λ o, Offense.id o ≠ id) (offense_table st))
    ∧ get_offense st' id = None
    ∧ delete_offense id st' = (NotFound, st').
Proof.
  intros [o Ho]. unfold delete_offense at 1. rewrite Ho. simpl.
  eexists _, _. split; [reflexivity|]. split; [reflexivity|].
  assert (get_offense
            (Db (user_table st) (student_table st)
               (filter (λ o, Offense.id o ≠ id) (offense_table st))) id = None) as E.
  { unfold get_offense. simpl. by rewrite filter_ne_no_id. }
  split; [exact E|]. unfold delete_offense. by rewrite E.
Qed.

Lemma delete_offense_twice_witness :
  ∃ sid st',
    delete_offense 2 sample_db
      = (Redirect (Some "Offense deleted successfully.") "offenses" (Some sid), st')
    ∧ st' = Db (user_table sample_db) (student_table sample_db)
               (filter (λ o, Offense.id o ≠ 2) (offense_table sample_db))
    ∧ get_offense st' 2 = None
    ∧ delete_offense 2 st' = (NotFound, st').
Proof. apply (delete_offense_twice sample_db 2). vm_compute. eauto. Defined.

(** ** Deleting a student *)

Lemma not_referenced_after_bulk_delete st id :
  id ∉ Offense.student_id <$> filter (λ o, Offense.student_id o ≠ id) (offense_table st).
Proof.
  intros (o & -> & Ho)%list_elem_of_fmap.
  apply list_elem_of_filter in Ho as [Hne _]. by apply Hne.
Qed.

(** The statements of [delete_student] always go through, and leave the
    two states below: offenses gone, then the student gone. *)
Lemma delete_student_states st id :
  let st1 := Db (user_table st) (student_table st)
               (filter (λ o, Offense.student_id o ≠ id) (offense_table st)) in
  let st2 := Db (user_table st)
               (filter (λ s, Student.id s ≠ id) (student_table st))
               (filter (λ o, Offense.student_id o ≠ id) (offense_table st)) in
  transaction_states (delete_student_stmts id) st = [st1; st2]
  ∧ transaction (delete_student_stmts id) st = Some st2.
Proof.
  intros st1 st2. unfold delete_student_stmts. cbn [transaction_states transaction].
  cbn [exec mbind option_bind]. cbn [offense_table student_table user_table].
  destruct (decide (id ∈ _)) as [Hin|_].
  - by apply not_referenced_after_bulk_delete in Hin.
  - done.
Qed.

Lemma ref_integrity_bulk_delete st id :
  ref_integrity st →
  ref_integrity (Db (user_table st) (student_table st)
                   (filter (λ o, Offense.student_id o ≠ id) (offense_table st))).
Proof.
  intros H o Ho. cbn in *. apply list_elem_of_filter in Ho as [_ Ho]. by apply H.
Qed.

Lemma ref_integrity_cascade st id :
  ref_integrity st →
  ref_integrity (Db (user_table st)
                   (filter (λ s, Student.id s ≠ id) (student_table st))
                   (filter (λ o, Offense.student_id o ≠ id) (offense_table st))).
Proof.
  intros H o Ho. cbn in *. apply list_elem_of_filter in Ho as [Hne Ho].
  apply H in Ho. apply list_elem_of_fmap in Ho as (s & Hs & Hin).
  apply list_elem_of_fmap. exists s. split; [done|].
  apply list_elem_of_filter. split; [congruence|done].
Qed.

(** C1, as the code has it: for an existing student of a database with
    referential integrity, [delete_student] sends the bulk delete of the
    student's offenses and then the delete of the student in one
    transaction, which goes through.  The committed database has neither
    the student nor an offense of that student and is otherwise unchanged;
    referential integrity holds after each statement and after the commit.
    The offense list of the deleted student is then a 404, because the
    route looks the student up first; the query under it is empty. *)
Theorem delete_student_cascade (st : db) (id : Z) :
  is_Some (get_student st id) →
  ref_integrity st →
  ∃ st1 st',
    transaction_states (delete_student_stmts id) st = [st1; st']
    ∧ delete_student id st
      = (Redirect (Some "Student deleted successfully.") "students" None, st')
    ∧ offense_table st1 = filter (λ o, Offense.student_id o ≠ id) (offense_table st)
    ∧ student_table st1 = student_table st
    ∧ st' = Db (user_table st)
               (filter (λ s, Student.id s ≠ id) (student_table st))
               (filter (λ o, Offense.student_id o ≠ id) (offense_table st))
    ∧ ref_integrity st1 ∧ ref_integrity st'
    ∧ offenses_of st' id = []
    ∧ get_student st' id = None
    ∧ offenses id st' = NotFound.
Proof.
  intros [s Hs] Hri.
  destruct (delete_student_states st id) as [Hstates Htx].
  eexists _, _. split; [exact Hstates|].
  assert (get_student
            (Db (user_table st)
               (filter (λ s, Student.id s ≠ id) (student_table st))
               (filter (λ o, Offense.student_id o ≠ id) (offense_table st))) id
          = None) as Hgone.
  { unfold get_student. cbn. by rewrite filter_ne_no_id. }
  repeat split.
  - unfold delete_student, commit. by rewrite Hs, Htx.
  - by apply ref_integrity_bulk_delete.
  - by apply ref_integrity_cascade.
  - unfold offenses_of. cbn. apply filter_ne_no_id.
  - exact Hgone.
  - unfold offenses. by rewrite Hgone.
Qed.

Lemma sample_db_ref_integrity : ref_integrity sample_db.
Proof.
  intros o Ho. cbv [sample_db offense_table student_table] in *.
  repeat (apply elem_of_cons in Ho as [->|Ho]); [..|by apply elem_of_nil in Ho];
    cbn; set_solver.
Qed.

Lemma delete_student_cascade_witness :
  ∃ st1 st',
    transaction_states (delete_student_stmts 1) sample_db = [st1; st']
    ∧ delete_student 1 sample_db
      = (Redirect (Some "Student deleted successfully.") "students" None, st')
    ∧ offense_table st1
      = filter (λ o, Offense.student_id o ≠ 1) (offense_table sample_db)
    ∧ student_table st1 = student_table sample_db
    ∧ st' = Db (user_table sample_db)
               (filter (λ s, Student.id s ≠ 1) (student_table sample_db))
               (filter (λ o, Offense.student_id o ≠ 1) (offense_table sample_db))
    ∧ ref_integrity st1 ∧ ref_integrity st'
    ∧ offenses_of st' 1 = []
    ∧ get_student st' 1 = None
    ∧ offenses 1 st' = NotFound.
Proof.
  apply (delete_student_cascade sample_db 1).
  - vm_compute. eauto.
  - exact sample_db_ref_integrity.
Defined.

(** C1, as stated, fails: after [delete_student 1] on the sample database
    (where student 1 exists and has offenses) the offense list of student 1
    is not an empty list but a 404. *)
Lemma delete_student_then_offenses_404 :
  is_Some (get_student sample_db 1)
  ∧ offenses 1 (delete_student 1 sample_db).2 = NotFound
  ∧ ¬ ∃ flashed s, offenses 1 (delete_student 1 sample_db).2
                   = Render flashed (OffensesHtml s []).
Proof.
  split; [vm_compute; eauto|].
  assert (offenses 1 (delete_student 1 sample_db).2 = NotFound) as E
    by (vm_compute; reflexivity).
  split; [exact E|]. intros (f & s & H). rewrite E in H. discriminate.
Qed.

(** ** [ORDER BY] sorts and keeps the rows *)

Section OrderBy.
Context {A : Type} (le : A → A → bool).
Hypothesis le_total : ∀ x y, le x y = true ∨ le y x = true.
Hypothesis le_trans : ∀ x y z, le x y = true → le y z = true → le x z = true.

Lemma insert_by_Permutation x l : insert_by le x l ≡ₚ x :: l.
Proof.
  induction l as [|y l IH]; [done|]. cbn.
  destruct (le x y); [done|]. rewrite IH. apply Permutation_swap.
Qed.

Lemma order_by_Permutation l : order_by le l ≡ₚ l.
Proof.
  induction l as [|x l IH]; [done|].
  cbn. rewrite insert_by_Permutation. by rewrite IH.
Qed.

Lemma elem_of_order_by x l : x ∈ order_by le l ↔ x ∈ l.
Proof. by rewrite order_by_Permutation. Qed.

Lemma insert_by_sorted x l :
  StronglySorted (λ a b, le a b = true) l →
  StronglySorted (λ a b, le a b = true) (insert_by le x l).
Proof.
  induction 1 as [|y l Hs IH Hall]; [by repeat constructor|].
  cbn. destruct (le x y) eqn:E.
  - constructor; [by constructor|]. constructor; [done|].
    eapply Forall_impl; [exact Hall|]. cbn. eauto.
  - constructor; [exact IH|].
    rewrite insert_by_Permutation. constructor; [|done].
    destruct (le_total x y); congruence.
Qed.

Lemma order_by_sorted l : StronglySorted (λ a b, le a b = true) (order_by le l).
Proof.
  induction l as [|x l IH]; [constructor|]. cbn. by apply insert_by_sorted.
Qed.

End OrderBy.

(** ** The roster *)

Lemma next_rowid_fresh (ids : list Z) : Forall (λ i, i < next_rowid ids) ids.
Proof.
  unfold next_rowid. induction ids as [|i ids IH]; [constructor|].
  constructor; cbn; [lia|].
  eapply Forall_impl; [exact IH|]. cbn. intros; lia.
Qed.

Lemma ascending_snoc (ids : list Z) :
  StronglySorted Z.lt ids → StronglySorted Z.lt (ids ++ [next_rowid ids]).
Proof.
  intros H. apply StronglySorted_app_2; [|done|repeat constructor].
  intros i j Hi ->%list_elem_of_singleton.
  pose proof (next_rowid_fresh ids) as Hf.
  rewrite Forall_forall in Hf. by apply Hf.
Qed.

Lemma ascending_filter (P : Z → Prop) `{∀ x, Decision (P x)} (ids : list Z) :
  StronglySorted Z.lt ids → StronglySorted Z.lt (filter P ids).
Proof.
  induction 1 as [|i ids Hs IH Hall]; [constructor|].
  rewrite filter_cons. destruct (decide (P i)); [|done].
  constructor; [done|].
  rewrite Forall_forall in Hall |- *.
  intros j [_ Hj]%list_elem_of_filter. auto.
Qed.

Lemma fmap_id_filter_students (i : Z) (l : list Student.t) :
  Student.id <$> filter (λ s, Student.id s ≠ i) l
  = filter (λ j, j ≠ i) (Student.id <$> l).
Proof.
  induction l as [|s l IH]; [done|].
  rewrite fmap_cons, !filter_cons.
  destruct (decide (Student.id s ≠ i)); cbn; by rewrite IH.
Qed.

Lemma fmap_id_update_students (i : Z) n a g gl sec str (l : list Student.t) :
  Student.id <$> ((λ s, if decide (Student.id s = i)
                        then Student.mk i n a g gl sec str else s) <$> l)
  = Student.id <$> l.
Proof.
  induction l as [|s l IH]; [done|].
  cbn. f_equal; [|exact IH]. by destruct (decide (Student.id s = i)).
Qed.

(** What each request does to the student table. *)
Lemma add_student_table (f : StudentForm.t) (st : db) :
  StudentForm.validate f = true →
  ∃ a, StudentForm.age f = Some a ∧
    (add_student f st).2
    = if sqlite_int a
      then Db (user_table st)
             (student_table st
                ++ [Student.mk (next_rowid (Student.id <$> student_table st))
                      (StudentForm.name f) a (StudentForm.gender f)
                      (StudentForm.grade_level f) (StudentForm.section f)
                      (StudentForm.strand f)])
             (offense_table st)
      else st.
Proof.
  intros Hv. unfold add_student. rewrite Hv.
  unfold StudentForm.validate in Hv.
  repeat (apply andb_prop in Hv as [Hv ?]).
  match goal with H : bool_decide (is_Some _) = true |- _ =>
    apply bool_decide_eq_true in H as [a Ha] end.
  rewrite Ha. exists a. split.
  - unfold StudentForm.age_data in Ha. destruct (StudentForm.age f) as [a'|]; [|done].
    by destruct (decide (a' = 0)); simplify_eq.
  - unfold commit. cbn [transaction exec mbind option_bind].
    by destruct (sqlite_int a).
Qed.

Lemma add_student_invalid (f : StudentForm.t) (st : db) :
  StudentForm.validate f = false → (add_student f st).2 = st.
Proof. intros Hv. unfold add_student. by rewrite Hv. Qed.

Lemma serve_student_ids (st : db) (r : request) :
  (∃ f, r = AddStudent f ∧ StudentForm.validate f = true ∧
        Student.id <$> student_table (serve st r)
        = (Student.id <$> student_table st)
            ++ [next_rowid (Student.id <$> student_table st)])
  ∨ (∃ i, Student.id <$> student_table (serve st r)
          = filter (λ j, j ≠ i) (Student.id <$> student_table st))
  ∨ Student.id <$> student_table (serve st r) = Student.id <$> student_table st.
Proof.
  destruct r as [f|i f|i|i f|i]; cbn [serve].
  - destruct (StudentForm.validate f) eqn:Hv.
    + destruct (add_student_table f st Hv) as (a & _ & ->).
      destruct (sqlite_int a); [|by right; right].
      left. exists f. split; [done|]. split; [done|].
      cbn [student_table]. by rewrite fmap_app.
    + right. right. by rewrite add_student_invalid.
  - right. right. unfold edit_student.
    destruct (get_student st i) as [s|]; [|done].
    destruct (StudentForm.validate f), (StudentForm.age_data f) as [a|]; try done.
    unfold commit. cbn [transaction exec mbind option_bind].
    destruct (sqlite_int a); [|done].
    cbn. apply fmap_id_update_students.
  - right. unfold delete_student.
    destruct (get_student st i) as [s|]; [|by right].
    left. exists i. unfold commit.
    destruct (delete_student_states st i) as [_ ->]. cbn.
    apply fmap_id_filter_students.
  - right. right. unfold add_offense.
    destruct (get_student st i) as [s|]; [|done].
    by destruct (OffenseForm.validate f), (OffenseForm.date f).
  - right. right. unfold delete_offense.
    by destruct (get_offense st i).
Qed.

Lemma history_snoc (rs : list request) (r : request) :
  history (rs ++ [r]) = serve (history rs) r.
Proof. unfold history. by rewrite foldl_app. Qed.

Lemma history_ascending (rs : list request) :
  StronglySorted Z.lt (Student.id <$> student_table (history rs)).
Proof.
  induction rs as [|r rs IH] using rev_ind; [constructor|].
  rewrite history_snoc.
  destruct (serve_student_ids (history rs) r) as [(f & _ & _ & ->)|[[i ->]| ->]].
  - by apply ascending_snoc.
  - by apply ascending_filter.
  - done.
Qed.

Lemma by_id_total (a b : Student.t) : by_id a b = true ∨ by_id b a = true.
Proof. unfold by_id. destruct (Z.leb_spec (Student.id a) (Student.id b)); [by left|right]. apply Z.leb_le. lia. Qed.

Lemma by_id_trans (a b c : Student.t) :
  by_id a b = true → by_id b c = true → by_id a c = true.
Proof. unfold by_id. rewrite !Z.leb_le. lia. Qed.

(** Rows whose ids ascend are already in the order of the scan. *)
Lemma order_by_id_ascending (l : list Student.t) :
  StronglySorted Z.lt (Student.id <$> l) → order_by by_id l = l.
Proof.
  induction l as [|x l IH]; [done|].
  rewrite fmap_cons. intros Hs. apply StronglySorted_inv in Hs as [Hs Hall].
  cbn [order_by foldr]. change (foldr (insert_by by_id) [] l) with (order_by by_id l).
  rewrite IH by done. destruct l as [|y l]; [done|].
  cbn [insert_by]. apply Forall_cons in Hall as [Hxy _].
  unfold by_id at 1. by rewrite (proj2 (Z.leb_le _ _)) by lia.
Qed.

(** C9: in every state of the store, [students] lists every row of the
    student table (each as often as the table holds it) in ascending order
    of the id.  After any history of requests this is the student table as
    it stands, the ids strictly ascending, which is also the order of
    insertion: an [add_student] with a form that validates and an age that
    fits a 64-bit integer puts its row, with an id above all others, at
    the end (with an age that does not fit, the insertion raises an error
    and the database stays as it is), and no other request reorders the
    rows (their ids stay a sublist). *)
Theorem students_lists_all_in_id_order :
  (∀ st, ∃ rows,
     students st = Render None (StudentsHtml rows)
     ∧ rows ≡ₚ student_table st
     ∧ StronglySorted (λ a b, Student.id a ≤ Student.id b) rows)
  ∧ (∀ rs,
       students (history rs) = Render None (StudentsHtml (student_table (history rs)))
       ∧ StronglySorted Z.lt (Student.id <$> student_table (history rs))
       ∧ (∀ f a, StudentForm.validate f = true → StudentForm.age f = Some a →
            if sqlite_int a
            then ∃ new, student_table (history (rs ++ [AddStudent f]))
                        = student_table (history rs) ++ [new]
                   ∧ Student.name new = StudentForm.name f
                   ∧ Forall (λ s, Student.id s < Student.id new)
                       (student_table (history rs))
            else history (rs ++ [AddStudent f]) = history rs)
       ∧ (∀ r, (∀ f, r ≠ AddStudent f) →
            (Student.id <$> student_table (history (rs ++ [r])))
              `sublist_of` (Student.id <$> student_table (history rs)))).
Proof.
  split.
  { intros st. exists (order_by by_id (student_table st)).
    split; [reflexivity|]. split; [apply order_by_Permutation|].
    pose proof (order_by_sorted by_id by_id_total by_id_trans (student_table st)) as Hs.
    induction Hs as [|x l Hs IH Hall]; constructor; [done|].
    eapply Forall_impl; [exact Hall|]. cbn. unfold by_id. intros y. by rewrite Z.leb_le. }
  intros rs. split; [|split; [apply history_ascending|split]].
  - unfold students. by rewrite order_by_id_ascending by apply history_ascending.
  - intros f a Hv Ha. rewrite history_snoc. cbn [serve].
    destruct (add_student_table f (history rs) Hv) as (a' & Ha' & ->).
    assert (a' = a) as -> by congruence.
    destruct (sqlite_int a); [|done]. cbn [student_table].
    eexists. split; [reflexivity|]. split; [reflexivity|]. cbn.
    pose proof (next_rowid_fresh (Student.id <$> student_table (history rs))) as Hf.
    by rewrite Forall_fmap in Hf.
  - intros r Hr. rewrite history_snoc.
    destruct (serve_student_ids (history rs) r) as [(f & -> & _)|[[i ->]| ->]].
    + by destruct (Hr f).
    + apply sublist_filter.
    + done.
Qed.

(** ** The aggregates *)

Section Tally.
Variable zeros : gmap string nat.

Lemma tally_insert data g k c :
  tally zeros data (g, k, c) = <[g := <[k := c]> (default zeros (data !! g))]> data.
Proof.
  unfold tally. destruct (data !! g) as [inner|] eqn:E.
  - by rewrite E.
  - rewrite lookup_insert_eq. cbn. by rewrite insert_insert_eq.
Qed.

Lemma inner_of_other_grades rows g :
  g ∉ (λ r, r.1.1) <$> rows → inner_of zeros g rows = zeros.
Proof.
  unfold inner_of. generalize zeros as m0.
  induction rows as [|r rows IH]; intros m0 Hnin; [done|].
  rewrite fmap_cons, not_elem_of_cons in Hnin. destruct Hnin as [Hne Hnin].
  cbn [foldl]. unfold overwrite at 2. rewrite decide_False by done. by apply IH.
Qed.

Lemma inner_of_snoc rows g r :
  inner_of zeros g (rows ++ [r])
  = overwrite g (inner_of zeros g rows) r.
Proof. unfold inner_of. by rewrite foldl_app. Qed.

(** The outer dictionary after the loop: a grade is a key when a grouped
    row has it, and its value is the inner dictionary of that grade. *)
Lemma tally_loop_lookup rows g :
  foldl (tally zeros) ∅ rows !! g
  = if decide (g ∈ (λ r, r.1.1) <$> rows) then Some (inner_of zeros g rows) else None.
Proof.
  induction rows as [|[[g' k] c] rows IH] using rev_ind.
  - cbn. by rewrite lookup_empty.
  - rewrite foldl_app. cbn [foldl]. rewrite tally_insert, inner_of_snoc.
    unfold overwrite. cbn [fst snd]. destruct (decide (g' = g)) as [->|Hne].
    + rewrite lookup_insert_eq, IH.
      assert (g ∈ (λ r, r.1.1) <$> rows ++ [(g, k, c)]) as Hin.
      { rewrite fmap_app. apply elem_of_app. right. cbn. by left. }
      destruct (decide (g ∈ (λ r, r.1.1) <$> rows ++ [(g, k, c)])); [|done].
      destruct (decide (g ∈ (λ r, r.1.1) <$> rows)) as [|Hnin]; cbn; [done|].
      by rewrite inner_of_other_grades.
    + rewrite lookup_insert_ne by done. rewrite IH.
      destruct (decide (g ∈ (λ r, r.1.1) <$> rows)) as [Hin|Hnin].
      * rewrite decide_True; [done|].
        rewrite fmap_app. apply elem_of_app. by left.
      * rewrite decide_False; [done|]. rewrite fmap_app.
        intros [?|Hg%list_elem_of_singleton]%elem_of_app; [done|].
        cbn in Hg. congruence.
Qed.

(** A key without a grouped row keeps the value the loop started from. *)
Lemma inner_fold_absent rows g k m0 :
  (g, k) ∉ fst <$> rows → foldl (overwrite g) m0 rows !! k = m0 !! k.
Proof.
  revert m0. induction rows as [|[[g' k'] c] rows IH]; intros m0 Hnin; [done|].
  cbn [foldl]. rewrite fmap_cons, not_elem_of_cons in Hnin.
  destruct Hnin as [Hne Hnin]. cbn in Hne.
  rewrite IH by done. unfold overwrite. cbn [fst snd].
  destruct (decide (g' = g)) as [->|]; [|done].
  apply lookup_insert_ne. congruence.
Qed.

(** A key with a grouped row holds the count of that row. *)
Lemma inner_fold_present rows g k c m0 :
  NoDup (fst <$> rows) → (g, k, c) ∈ rows →
  foldl (overwrite g) m0 rows !! k = Some c.
Proof.
  revert m0. induction rows as [|r rows IH]; intros m0 Hnd Hin.
  - by apply elem_of_nil in Hin.
  - rewrite fmap_cons in Hnd. apply NoDup_cons in Hnd as [Hfresh Hnd].
    apply elem_of_cons in Hin as [<-|Hin].
    + cbn [foldl]. rewrite inner_fold_absent by done.
      unfold overwrite. cbn [fst snd]. rewrite decide_True by done.
      apply lookup_insert_eq.
    + cbn [foldl]. by apply IH.
Qed.

End Tally.

Lemma group_count_keys keys : fst <$> group_count keys = remove_dups keys.
Proof.
  unfold group_count. rewrite <- list_fmap_compose.
  rewrite <- (list_fmap_id (remove_dups keys)) at 2.
  apply list_fmap_ext. by intros _ [g k] _.
Qed.

Lemma group_count_elem_of keys g k c :
  (g, k, c) ∈ group_count keys
  ↔ (g, k) ∈ keys ∧ c = length (filter (λ k', k' = (g, k)) keys).
Proof.
  unfold group_count. rewrite list_elem_of_fmap. split.
  - intros ([g' k'] & Heq & Hin). cbn in Heq. simplify_eq.
    split; [by rewrite elem_of_remove_dups in Hin|done].
  - intros [Hin ->]. exists (g, k). split; [done|]. by rewrite elem_of_remove_dups.
Qed.

Lemma group_count_grades keys g :
  g ∈ (λ r, r.1.1) <$> group_count keys ↔ g ∈ fst <$> keys.
Proof.
  rewrite !list_elem_of_fmap. split.
  - intros ([[g' k] c] & -> & Hin). apply group_count_elem_of in Hin as [Hin _].
    by exists (g', k).
  - intros ([g' k] & -> & Hin). eexists (g', k, _). split; [done|].
    by apply group_count_elem_of.
Qed.

(** The dictionary built from the grouped rows of [keys]. *)
Lemma aggregate_lookup zeros keys g :
  foldl (tally zeros) ∅ (group_count keys) !! g
  = if decide (g ∈ fst <$> keys)
    then Some (inner_of zeros g (group_count keys)) else None.
Proof.
  rewrite tally_loop_lookup.
  destruct (decide (g ∈ (λ r, r.1.1) <$> group_count keys)) as [H|H];
    rewrite group_count_grades in H.
  - by rewrite decide_True.
  - by rewrite decide_False.
Qed.

Lemma aggregate_cell zeros keys g k :
  inner_of zeros g (group_count keys) !! k
  = if decide ((g, k) ∈ keys)
    then Some (length (filter (λ k', k' = (g, k)) keys)) else zeros !! k.
Proof.
  unfold inner_of. destruct (decide ((g, k) ∈ keys)) as [Hin|Hnin].
  - apply inner_fold_present.
    + rewrite group_count_keys. apply NoDup_remove_dups.
    + by apply group_count_elem_of.
  - apply inner_fold_absent. rewrite group_count_keys.
    by rewrite elem_of_remove_dups.
Qed.

Lemma length_filter_fmap {A B} (f : A → B) (P : B → Prop) `{∀ y, Decision (P y)}
    (l : list A) :
  length (filter P (f <$> l)) = length (filter (λ x, P (f x)) l).
Proof.
  induction l as [|x l IH]; [done|].
  rewrite fmap_cons, !filter_cons. destruct (decide (P (f x))); cbn; by rewrite IH.
Qed.

Lemma length_filter_ext {A} (P Q : A → Prop) `{∀ x, Decision (P x), ∀ x, Decision (Q x)}
    (l : list A) :
  (∀ x, P x ↔ Q x) → length (filter P l) = length (filter Q l).
Proof. intros HPQ. f_equal. by apply list_filter_iff. Qed.

Lemma not_elem_of_filter_length_0 {A} `{EqDecision A} (x : A) (l : list A) :
  x ∉ l → length (filter (λ y, y = x) l) = 0%nat.
Proof.
  intros Hnin. destruct (filter _ l) as [|y l'] eqn:E; [done|].
  assert (y ∈ filter (λ y, y = x) l) as Hy by (rewrite E; left).
  apply list_elem_of_filter in Hy as [-> Hy]. done.
Qed.

Lemma elem_of_filter_length_pos {A} `{EqDecision A} (x : A) (l : list A) :
  x ∈ l → length (filter (λ y, y = x) l) ≠ 0%nat.
Proof.
  intros Hin Hlen. apply length_zero_iff_nil in Hlen.
  by apply (filter_nil_not_elem_of _ _ x Hlen).
Qed.

Lemma elem_of_student_join_offense st s o :
  (s, o) ∈ student_join_offense st
  ↔ s ∈ student_table st ∧ o ∈ offense_table st
    ∧ Student.id s = Offense.student_id o.
Proof.
  unfold student_join_offense. rewrite list_elem_of_bind. split.
  - intros (s' & Hin & Hs'). apply list_elem_of_bind in Hin as (o' & Hin & Ho').
    destruct (decide _); [|by apply elem_of_nil in Hin].
    apply list_elem_of_singleton in Hin as [= -> ->]. done.
  - intros (Hs & Ho & Heq). exists s. split; [|done].
    apply list_elem_of_bind. exists o. split; [|done].
    rewrite decide_True by done. by left.
Qed.

Lemma grade_has_offense_join st g :
  grade_has_offense st g
  ↔ g ∈ fst <$> ((λ so, (Student.grade_level so.1, Offense.offense_type so.2))
                   <$> student_join_offense st).
Proof.
  rewrite <- list_fmap_compose, list_elem_of_fmap. unfold grade_has_offense. split.
  - intros (s & o & Hs & Ho & Hid & <-). exists (s, o). split; [done|].
    by apply elem_of_student_join_offense.
  - intros ([s o] & -> & Hin).
    apply elem_of_student_join_offense in Hin as (Hs & Ho & Hid).
    by exists s, o.
Qed.

Lemma grade_has_offense_join_gender st g :
  grade_has_offense st g
  ↔ g ∈ fst <$> ((λ so, (Student.grade_level so.1, Student.gender so.1))
                   <$> student_join_offense st).
Proof.
  rewrite <- list_fmap_compose, list_elem_of_fmap. unfold grade_has_offense. split.
  - intros (s & o & Hs & Ho & Hid & <-). exists (s, o). split; [done|].
    by apply elem_of_student_join_offense.
  - intros ([s o] & -> & Hin).
    apply elem_of_student_join_offense in Hin as (Hs & Ho & Hid).
    by exists s, o.
Qed.

(** Every cell of the type/grade dictionary: the count when the grade has
    an offense of that type, the zero fill otherwise. *)
Lemma type_grade_cell st g inner ty :
  offenses_by_type_grade st !! g = Some inner →
  inner !! ty = if decide (count_by_type st g ty = 0%nat)
                then type_zeros !! ty else Some (count_by_type st g ty).
Proof.
  unfold offenses_by_type_grade, type_grade_results. rewrite aggregate_lookup.
  destruct (decide (g ∈ _)) as [_|]; [|done]. intros [= <-].
  rewrite aggregate_cell.
  assert (length (filter (λ k', k' = (g, ty))
            ((λ so, (Student.grade_level so.1, Offense.offense_type so.2))
               <$> student_join_offense st)) = count_by_type st g ty) as Hc.
  { rewrite length_filter_fmap. unfold count_by_type.
    apply length_filter_ext. intros [s o]. cbn.
    split; [by intros [= <- <-]|by intros [<- <-]]. }
  destruct (decide ((g, ty) ∈ _)) as [Hin|Hnin].
  - rewrite Hc. rewrite decide_False; [done|].
    rewrite <- Hc. by apply elem_of_filter_length_pos.
  - rewrite decide_True; [done|]. rewrite <- Hc.
    by apply not_elem_of_filter_length_0.
Qed.

Lemma gender_grade_cell st g inner x :
  offenses_by_gender_grade st !! g = Some inner →
  inner !! x = if decide (count_by_gender st g x = 0%nat)
               then gender_zeros !! x else Some (count_by_gender st g x).
Proof.
  unfold offenses_by_gender_grade, gender_grade_results. rewrite aggregate_lookup.
  destruct (decide (g ∈ _)) as [_|]; [|done]. intros [= <-].
  rewrite aggregate_cell.
  assert (length (filter (λ k', k' = (g, x))
            ((λ so, (Student.grade_level so.1, Student.gender so.1))
               <$> student_join_offense st)) = count_by_gender st g x) as Hc.
  { rewrite length_filter_fmap. unfold count_by_gender.
    apply length_filter_ext. intros [s o]. cbn.
    split; [by intros [= <- <-]|by intros [<- <-]]. }
  destruct (decide ((g, x) ∈ _)) as [Hin|Hnin].
  - rewrite Hc. rewrite decide_False; [done|].
    rewrite <- Hc. by apply elem_of_filter_length_pos.
  - rewrite decide_True; [done|]. rewrite <- Hc.
    by apply not_elem_of_filter_length_0.
Qed.

Lemma type_zeros_choices ty :
  ty ∈ OffenseForm.offense_type_choices → type_zeros !! ty = Some 0%nat.
Proof.
  unfold OffenseForm.offense_type_choices.
  rewrite !elem_of_cons, elem_of_nil. intros [->|[->|[->|[]]]]; reflexivity.
Qed.

Lemma gender_zeros_choices x :
  x ∈ StudentForm.gender_choices → gender_zeros !! x = Some 0%nat.
Proof.
  unfold StudentForm.gender_choices.
  rewrite !elem_of_cons, elem_of_nil. intros [->|[->|[]]]; reflexivity.
Qed.

Lemma type_grade_keys st g :
  is_Some (offenses_by_type_grade st !! g) ↔ grade_has_offense st g.
Proof.
  unfold offenses_by_type_grade, type_grade_results.
  rewrite aggregate_lookup, grade_has_offense_join.
  destruct (decide (g ∈ _)) as [Hin|Hnin].
  - split; [done|by eexists].
  - split; [by intros [? ?]|done].
Qed.

Lemma gender_grade_keys st g :
  is_Some (offenses_by_gender_grade st !! g) ↔ grade_has_offense st g.
Proof.
  unfold offenses_by_gender_grade, gender_grade_results.
  rewrite aggregate_lookup, grade_has_offense_join_gender.
  destruct (decide (g ∈ _)) as [Hin|Hnin].
  - split; [done|by eexists].
  - split; [by intros [? ?]|done].
Qed.

Lemma count_by_type_pos st s o :
  s ∈ student_table st → o ∈ offense_table st →
  Student.id s = Offense.student_id o →
  count_by_type st (Student.grade_level s) (Offense.offense_type o) ≠ 0%nat.
Proof.
  intros Hs Ho Hid Hlen. unfold count_by_type in Hlen.
  apply length_zero_iff_nil in Hlen.
  apply (filter_nil_not_elem_of _ _ (s, o)) in Hlen; [|done].
  apply Hlen. by apply elem_of_student_join_offense.
Qed.

Lemma count_by_gender_pos st s o :
  s ∈ student_table st → o ∈ offense_table st →
  Student.id s = Offense.student_id o →
  count_by_gender st (Student.grade_level s) (Student.gender s) ≠ 0%nat.
Proof.
  intros Hs Ho Hid Hlen. unfold count_by_gender in Hlen.
  apply length_zero_iff_nil in Hlen.
  apply (filter_nil_not_elem_of _ _ (s, o)) in Hlen; [|done].
  apply Hlen. by apply elem_of_student_join_offense.
Qed.

(** C2: in the dictionary of [offenses_by_type_grade], every grade that is
    present has the three keys warning, minor and major, each with the
    number of offenses of that type owned by students of that grade (so 0
    when there is none); and on the fixture of two warnings and a major
    for grade 11 and a minor for grade 12 the result is the expected one. *)
Theorem offenses_by_type_grade_zero_filled :
  (∀ st g inner,
     offenses_by_type_grade st !! g = Some inner →
     ∀ ty, ty ∈ OffenseForm.offense_type_choices →
       inner !! ty = Some (count_by_type st g ty))
  ∧ offenses_by_type_grade sample_db = sample_by_type_grade.
Proof.
  split.
  - intros st g inner Hg ty Hty. rewrite (type_grade_cell st g inner ty Hg).
    destruct (decide (count_by_type st g ty = 0%nat)) as [->|]; [|done].
    by apply type_zeros_choices.
  - vm_compute. reflexivity.
Qed.

Lemma offenses_by_type_grade_zero_filled_witness :
  (<["warning" := 2%nat]> (<["minor" := 0%nat]> (<["major" := 1%nat]> ∅))
     : gmap string nat) !! "warning"
  = Some (count_by_type sample_db "11" "warning").
Proof.
  apply (proj1 offenses_by_type_grade_zero_filled sample_db "11").
  - vm_compute. reflexivity.
  - constructor.
Defined.

(** C10: in both aggregates a grade is a key exactly when some offense
    belongs to a student of that grade, so a grade whose students have no
    offense is absent; and the offense type (or gender) of any joined row
    is a key of its grade with its count, whether or not it is one of the
    expected values, beside the zero-filled keys.  The last two parts show
    it on a database with an unexpected type and gender. *)
Theorem aggregates_inner_join_extra_keys :
  (∀ st g,
     (is_Some (offenses_by_type_grade st !! g) ↔ grade_has_offense st g)
     ∧ (is_Some (offenses_by_gender_grade st !! g) ↔ grade_has_offense st g))
  ∧ (∀ st s o,
       s ∈ student_table st → o ∈ offense_table st →
       Student.id s = Offense.student_id o →
       ∃ by_type by_gender,
         offenses_by_type_grade st !! Student.grade_level s = Some by_type
         ∧ offenses_by_gender_grade st !! Student.grade_level s = Some by_gender
         ∧ by_type !! Offense.offense_type o
           = Some (count_by_type st (Student.grade_level s) (Offense.offense_type o))
         ∧ by_gender !! Student.gender s
           = Some (count_by_gender st (Student.grade_level s) (Student.gender s))
         ∧ count_by_type st (Student.grade_level s) (Offense.offense_type o) ≠ 0%nat
         ∧ count_by_gender st (Student.grade_level s) (Student.gender s) ≠ 0%nat
         ∧ (∀ ty, ty ∈ OffenseForm.offense_type_choices → is_Some (by_type !! ty))
         ∧ (∀ x, x ∈ StudentForm.gender_choices → is_Some (by_gender !! x)))
  ∧ offenses_by_type_grade odd_db = odd_by_type_grade
  ∧ offenses_by_gender_grade odd_db = odd_by_gender_grade.
Proof.
  split; [|split; [|split; vm_compute; reflexivity]].
  - intros st g. split; [apply type_grade_keys|apply gender_grade_keys].
  - intros st s o Hs Ho Hid.
    assert (grade_has_offense st (Student.grade_level s)) as Hg by by exists s, o.
    destruct (proj2 (type_grade_keys st _) Hg) as [by_type Ht].
    destruct (proj2 (gender_grade_keys st _) Hg) as [by_gender Hx].
    pose proof (count_by_type_pos st s o Hs Ho Hid) as Hct.
    pose proof (count_by_gender_pos st s o Hs Ho Hid) as Hcg.
    exists by_type, by_gender. repeat split; try done.
    + rewrite (type_grade_cell _ _ _ _ Ht). by rewrite decide_False.
    + rewrite (gender_grade_cell _ _ _ _ Hx). by rewrite decide_False.
    + intros ty Hty. rewrite (type_grade_cell _ _ _ _ Ht).
      destruct (decide _); [|by eexists].
      rewrite type_zeros_choices by done. by eexists.
    + intros x Hx'. rewrite (gender_grade_cell _ _ _ _ Hx).
      destruct (decide _); [|by eexists].
      rewrite gender_zeros_choices by done. by eexists.
Qed.

(** ** The account store *)

Section AccountProperties.
Variable email_ok : string -> bool.
Variable hash_method : string.
Variable digest : string -> string -> string -> string.

Local Abbreviation do_register := (register email_ok hash_method digest).
Local Abbreviation do_login := (login email_ok digest).
Local Abbreviation gen_hash := (generate_password_hash hash_method digest).
Local Abbreviation check_hash := (check_password_hash digest).

Lemma split_dollar_app (a b : string) :
  has_char "$" a = false → split_dollar (a +:+ "$" +:+ b) = Some (a, b).
Proof.
  induction a as [|c a IH]; intros H; [reflexivity|].
  change (has_char "$" (String c a)) with (Ascii.eqb "$" c || has_char "$" a) in H.
  apply orb_false_elim in H as [Hc Ha]. rewrite Ascii.eqb_sym in Hc.
  change (String c a +:+ "$" +:+ b) with (String c (a +:+ "$" +:+ b)).
  cbn [split_dollar]. by rewrite Hc, IH.
Qed.

(** Checking a password against a generated hash recomputes the digest
    with the stored method and salt. *)
Lemma check_generated (salt p p' : string) :
  has_char "$" hash_method = false → has_char "$" salt = false →
  check_hash (gen_hash salt p) p'
  = bool_decide (digest hash_method salt p' = digest hash_method salt p).
Proof.
  intros Hm Hs. unfold check_password_hash, generate_password_hash.
  rewrite split_dollar_app by done. by rewrite split_dollar_app by done.
Qed.

Lemma user_by_email_None st e :
  user_by_email st e = None ↔ e ∉ User.email <$> user_table st.
Proof.
  unfold user_by_email. rewrite head_None. split.
  - intros Hnil (u & -> & Hu)%list_elem_of_fmap.
    by apply (filter_nil_not_elem_of _ _ u Hnil).
  - intros Hnin. destruct (filter _ _) as [|u l] eqn:E; [done|].
    assert (u ∈ filter (λ u, User.email u = e) (user_table st)) as Hu
      by (rewrite E; left).
    apply list_elem_of_filter in Hu as [<- Hu].
    destruct Hnin. by apply list_elem_of_fmap_2.
Qed.

(** A registration that reports success was valid, found no account with
    the email, and added exactly one row holding the generated hash. *)
Lemma register_success salt f st st' :
  do_register salt f st = (registered_ok, st') →
  validate_register email_ok f = true
  ∧ user_by_email st (RegisterForm.email f) = None
  ∧ st' = Db (user_table st
                ++ [User.mk (next_rowid (User.id <$> user_table st))
                      (RegisterForm.email f)
                      (gen_hash salt (RegisterForm.password f))])
             (student_table st) (offense_table st).
Proof.
  unfold register, registered_ok, commit.
  destruct (validate_register email_ok f); [|discriminate].
  destruct (user_by_email st (RegisterForm.email f)) as [u|] eqn:E; [discriminate|].
  cbn [transaction exec mbind option_bind].
  destruct (decide (RegisterForm.email f ∈ _)); cbn; [discriminate|].
  by intros [= <-].
Qed.

Lemma register_duplicate salt f st :
  RegisterForm.email f ∈ User.email <$> user_table st →
  do_register salt f st
  = if validate_register email_ok f then (already_registered, st)
    else (Render None RegisterHtml, st).
Proof.
  intros Hin. unfold register.
  destruct (validate_register email_ok f); [|done].
  destruct (user_by_email st (RegisterForm.email f)) as [u|] eqn:E; [done|].
  by apply user_by_email_None in E.
Qed.

(** C4: when the email of the form is already registered, [register]
    leaves the database as it is, whatever the password, and a form that
    validates is answered with the message that the email is already
    registered; and a registration that succeeds adds one row whose only
    trace of the password is the text [method$salt$digest] that
    [generate_password_hash] computed, after which the same form is
    refused as a duplicate without a second row. *)
Theorem register_rejects_duplicates :
  (∀ salt f st,
     RegisterForm.email f ∈ User.email <$> user_table st →
     (do_register salt f st).2 = st
     ∧ (do_register salt f st).1 ≠ registered_ok
     ∧ (validate_register email_ok f = true →
        (do_register salt f st).1 = already_registered))
  ∧ (∀ salt f st st',
       do_register salt f st = (registered_ok, st') →
       user_table st'
       = user_table st
           ++ [User.mk (next_rowid (User.id <$> user_table st))
                 (RegisterForm.email f)
                 (hash_method +:+ "$" +:+ salt +:+ "$"
                    +:+ digest hash_method salt (RegisterForm.password f))]
       ∧ (RegisterForm.email f ∉ User.email <$> user_table st)
       ∧ ∀ salt2, do_register salt2 f st' = (already_registered, st')).
Proof.
  split.
  - intros salt f st Hin. rewrite register_duplicate by done.
    destruct (validate_register email_ok f); cbn; by repeat split.
  - intros salt f st st' Hok.
    apply register_success in Hok as (Hv & Hnone & ->). cbn [user_table].
    split; [done|]. split; [by apply user_by_email_None|].
    intros salt2. rewrite register_duplicate.
    + by rewrite Hv.
    + cbn [user_table]. rewrite fmap_app. apply elem_of_app. right. cbn. left.
Qed.

(** After a successful registration the new account is the first one with
    its email. *)
Lemma user_by_email_registered st e u :
  user_by_email st e = None → User.email u = e →
  user_by_email (Db (user_table st ++ [u]) (student_table st) (offense_table st)) e
  = Some u.
Proof.
  unfold user_by_email. cbn [user_table]. rewrite head_None. intros Hnil He.
  rewrite filter_app, Hnil, app_nil_l. by rewrite filter_cons_True.
Qed.

(** C7: after a registration that succeeded (so with a valid email and
    password), [login] with the same email and password logs the
    registered account in; with any other password, on which the digest
    under the stored salt does not collide with the registered one,
    [login] never logs in, and answers a valid form with the
    invalid-credentials message.  The method tag and the salt contain no
    dollar sign, as werkzeug produces them. *)
Theorem login_after_register (salt : string) (f : RegisterForm.t) (st st' : db) :
  has_char "$" hash_method = false →
  has_char "$" salt = false →
  do_register salt f st = (registered_ok, st') →
  ∃ account,
    account ∈ user_table st'
    ∧ (account ∉ user_table st)
    ∧ User.email account = RegisterForm.email f
    ∧ do_login (LoginForm.mk (RegisterForm.email f) (RegisterForm.password f)) st'
      = LoginAndRedirect account "students"
    ∧ ∀ p',
        p' ≠ RegisterForm.password f →
        (digest hash_method salt p' = digest hash_method salt (RegisterForm.password f)
         → p' = RegisterForm.password f) →
        (∀ u endpoint,
           do_login (LoginForm.mk (RegisterForm.email f) p') st'
           ≠ LoginAndRedirect u endpoint)
        ∧ (data_required p' = true →
           do_login (LoginForm.mk (RegisterForm.email f) p') st' = invalid_credentials).
Proof.
  intros Hm Hs Hok. apply register_success in Hok as (Hv & Hnone & ->).
  exists (User.mk (next_rowid (User.id <$> user_table st)) (RegisterForm.email f)
            (gen_hash salt (RegisterForm.password f))).
  split; [|split; [|split; [reflexivity|]]].
  - cbn [user_table]. apply elem_of_app. right. left.
  - intros Hin. apply user_by_email_None in Hnone. apply Hnone.
    apply list_elem_of_fmap. eexists. split; [|exact Hin]. reflexivity.
  - pose proof (user_by_email_registered st (RegisterForm.email f)
                  (User.mk (next_rowid (User.id <$> user_table st))
                     (RegisterForm.email f)
                     (gen_hash salt (RegisterForm.password f))) Hnone eq_refl)
      as Hfind.
    unfold validate_register in Hv.
    apply andb_prop in Hv as [Hv Hpw]. split.
    + unfold login, validate_login. cbn [LoginForm.email LoginForm.password].
      rewrite Hv, Hpw. cbn [andb]. rewrite Hfind.
      unfold check_password. cbn [User.password_hash].
      rewrite check_generated by done. by rewrite bool_decide_eq_true_2.
    + intros p' Hne Hfree.
      assert (check_password digest
                (User.mk (next_rowid (User.id <$> user_table st))
                   (RegisterForm.email f)
                   (gen_hash salt (RegisterForm.password f))) p'
              = false) as Hcheck.
      { unfold check_password. cbn [User.password_hash].
        rewrite check_generated by done. apply bool_decide_eq_false_2. auto. }
      split.
      * intros u endpoint. unfold login.
        destruct (validate_login email_ok _); [|discriminate].
        cbn [LoginForm.email LoginForm.password]. rewrite Hfind, Hcheck. discriminate.
      * intros Hreq. unfold login, validate_login.
        cbn [LoginForm.email LoginForm.password]. rewrite Hv, Hreq. cbn [andb].
        by rewrite Hfind, Hcheck.
Qed.

End AccountProperties.

Lemma register_rejects_duplicates_witness :
  (register any_email sample_method sample_digest "other salt"
     (RegisterForm.mk "staff@school.edu" "another") sample_registered).2
  = sample_registered
  ∧ (register any_email sample_method sample_digest "other salt"
       (RegisterForm.mk "staff@school.edu" "another") sample_registered).1
    = already_registered.
Proof.
  destruct (proj1 (register_rejects_duplicates any_email sample_method sample_digest)
              "other salt" (RegisterForm.mk "staff@school.edu" "another")
              sample_registered) as (Hsame & _ & Hdup).
  - vm_compute. left.
  - split; [exact Hsame|]. apply Hdup. reflexivity.
Defined.

Lemma login_after_register_witness :
  ∃ account,
    login any_email sample_digest (LoginForm.mk "staff@school.edu" "s3cret")
      sample_registered = LoginAndRedirect account "students"
    ∧ login any_email sample_digest (LoginForm.mk "staff@school.edu" "S3cret")
        sample_registered = invalid_credentials.
Proof.
  destruct (login_after_register any_email sample_method sample_digest
              sample_salt sample_form empty_db sample_registered)
    as (account & _ & _ & _ & Hlogin & Hother); [reflexivity..|].
  exists account. split; [exact Hlogin|].
  apply (Hother "S3cret"); [discriminate| |reflexivity].
  vm_compute. intros H. discriminate H.
Defined.

(** ** Strings *)

Lemma append_assoc (a b c : string) : (a +:+ b) +:+ c = a +:+ b +:+ c.
Proof.
  induction a as [|ch a IH]; [done|].
  change (String ch ((a +:+ b) +:+ c) = String ch (a +:+ b +:+ c)). by rewrite IH.
Qed.

Lemma append_nil_r (a : string) : a +:+ EmptyString = a.
Proof.
  induction a as [|ch a IH]; [done|].
  change (String ch (a +:+ EmptyString) = String ch a). by rewrite IH.
Qed.

Lemma date_leb_total a b : date_leb a b = true ∨ date_leb b a = true.
Proof.
  unfold date_leb. destruct a as [y m dd], b as [y' m' dd']. cbn.
  destruct (Z.ltb_spec y y'), (Z.ltb_spec y' y), (Z.eqb_spec y y'), (Z.eqb_spec y' y),
    (Z.ltb_spec m m'), (Z.ltb_spec m' m), (Z.eqb_spec m m'), (Z.eqb_spec m' m),
    (Z.leb_spec dd dd'), (Z.leb_spec dd' dd); cbn; auto; lia.
Qed.

Lemma date_leb_true a b :
  date_leb a b = true
  ↔ date_year a < date_year b
    ∨ (date_year a = date_year b
       ∧ (date_month a < date_month b
          ∨ (date_month a = date_month b ∧ date_day a ≤ date_day b))).
Proof.
  unfold date_leb.
  rewrite orb_true_iff, andb_true_iff, orb_true_iff, andb_true_iff.
  rewrite !Z.ltb_lt, !Z.eqb_eq, Z.leb_le. tauto.
Qed.

Lemma date_leb_trans a b c :
  date_leb a b = true → date_leb b c = true → date_leb a c = true.
Proof. rewrite !date_leb_true. lia. Qed.

Lemma date_asc_sorted l :
  StronglySorted (λ a b, date_asc a b = true) (order_by date_asc l).
Proof.
  apply order_by_sorted.
  - intros x y. apply date_leb_total.
  - intros x y z. apply date_leb_trans.
Qed.


(** ** The calendar view *)

Lemma datetime_Some y m dd :
  MINYEAR ≤ y ≤ MAXYEAR → 1 ≤ m ≤ 12 → 1 ≤ dd ≤ monthrange_ndays y m →
  datetime y m dd = Some (Date y m dd).
Proof.
  intros Hy Hm Hd. unfold datetime.
  destruct (andb _ _) eqn:E; [done|].
  rewrite !andb_false_iff, !Z.leb_gt in E. lia.
Qed.

Lemma datetime_year_out_of_range y m dd :
  y < MINYEAR ∨ MAXYEAR < y → datetime y m dd = None.
Proof.
  intros Hy. unfold datetime.
  destruct (andb _ _) eqn:E; [|done].
  rewrite !andb_true_iff, !Z.leb_le in E. lia.
Qed.

Lemma monthrange_ndays_bounds y m : 28 ≤ monthrange_ndays y m ≤ 31.
Proof.
  unfold monthrange_ndays, mdays.
  destruct (m =? 2); cbn; [destruct (isleap y); lia|].
  destruct (_ || _); lia.
Qed.

(** The two date comparisons of the query select the dates of the month. *)
Lemma in_month_bounds y m x :
  date_leb (Date y m 1) x = true ∧ date_leb x (Date y m (monthrange_ndays y m)) = true
  ↔ in_month y m x.
Proof. unfold in_month. rewrite !date_leb_true. cbn. lia. Qed.

Lemma append_detail_lookup (m : gmap Z (list string)) (o : Offense.t) (dd : Z) :
  append_detail m o !! dd
  = if decide (date_day (Offense.date o) = dd)
    then Some (default [] (m !! dd) ++ [detail o]) else m !! dd.
Proof.
  unfold append_detail. destruct (decide _) as [->|Hne].
  - by rewrite lookup_insert_eq.
  - by rewrite lookup_insert_ne.
Qed.

(** The per-day mapping after the loop: the details of the offenses of
    that day, in the order of the query; no key for a day without any. *)
Lemma append_detail_loop (l : list Offense.t) (m : gmap Z (list string)) (dd : Z) :
  foldl append_detail m l !! dd
  = match detail <$> filter (λ o, date_day (Offense.date o) = dd) l with
    | [] => m !! dd
    | ds => Some (default [] (m !! dd) ++ ds)
    end.
Proof.
  revert m. induction l as [|o l IH]; intros m.
  - done.
  - cbn [foldl]. rewrite IH, !append_detail_lookup, filter_cons.
    destruct (decide (date_day (Offense.date o) = dd)) as [Heq|Hne].
    + rewrite fmap_cons. cbn [default].
      destruct (detail <$> filter _ l) as [|x ds]; [done|].
      unfold id. by rewrite <- app_assoc.
    + done.
Qed.

(** With a student, a year in range and the month it shows, the view
    renders the calendar page. *)
Lemma calendar_view_renders now id year_arg month_arg st student :
  get_student st id = Some student →
  MINYEAR ≤ default (date_year now) year_arg ≤ MAXYEAR →
  1 ≤ shown_month now month_arg ≤ 12 →
  calendar_view now id year_arg month_arg st
  = Render None
      (CalendarHtml
         (calendar_page st student id (default (date_year now) year_arg)
            (shown_month now month_arg))).
Proof.
  intros Hs Hy Hm. unfold calendar_view. rewrite Hs.
  fold (shown_month now month_arg).
  pose proof (monthrange_ndays_bounds (default (date_year now) year_arg)
                (shown_month now month_arg)) as Hn.
  rewrite !datetime_Some by lia. reflexivity.
Qed.

(** A year outside 1..9999 makes [datetime(year, month, 1)] raise. *)
Lemma calendar_view_year_out_of_range now id year month_arg st :
  is_Some (get_student st id) →
  year < MINYEAR ∨ MAXYEAR < year →
  calendar_view now id (Some year) month_arg st = InternalError.
Proof.
  intros [s Hs] Hy. unfold calendar_view. rewrite Hs. cbn [default]; unfold Datatypes.id.
  by rewrite datetime_year_out_of_range.
Qed.

Lemma shown_month_fallback now month :
  month < 1 ∨ 12 < month → shown_month now (Some month) = date_month now.
Proof.
  intros H. unfold shown_month. cbn [default]; unfold Datatypes.id.
  destruct (orb _ _) eqn:E; [done|].
  rewrite orb_false_iff, Z.ltb_ge, Z.gtb_ltb, Z.ltb_ge in E. lia.
Qed.

Lemma shown_month_valid now month :
  1 ≤ month ≤ 12 → shown_month now (Some month) = month.
Proof.
  intros H. unfold shown_month. cbn [default]; unfold Datatypes.id.
  destruct (orb _ _) eqn:E; [|done].
  rewrite orb_true_iff, Z.ltb_lt, Z.gtb_ltb, Z.ltb_lt in E. lia.
Qed.

(** C5 at the input where it fails: student 1 exists, the month 13 is
    replaced by the current month, and the year 0 then makes the
    construction of the first day of the month raise, so the request ends
    in an error instead of a calendar. *)
Theorem calendar_view_month_13_year_0 :
  is_Some (get_student sample_db 1)
  ∧ shown_month sample_now (Some 13) = date_month sample_now
  ∧ datetime 0 (shown_month sample_now (Some 13)) 1 = None
  ∧ calendar_view sample_now 1 (Some 0) (Some 13) sample_db = InternalError.
Proof. repeat split; vm_compute; eauto. Qed.

(** The fallback of the month, where the year allows a calendar: for an
    existing student, a valid clock reading and a year parameter absent or
    within 1..9999, a month parameter outside 1..12 gives the page of the
    current month, the same response as asking for the current month. *)
Theorem calendar_view_month_fallback now id year_arg month st student :
  get_student st id = Some student →
  datetime (date_year now) (date_month now) (date_day now) = Some now →
  MINYEAR ≤ default (date_year now) year_arg ≤ MAXYEAR →
  month < 1 ∨ 12 < month →
  calendar_view now id year_arg (Some month) st
  = Render None
      (CalendarHtml
         (calendar_page st student id (default (date_year now) year_arg)
            (date_month now)))
  ∧ calendar_view now id year_arg (Some month) st
    = calendar_view now id year_arg (Some (date_month now)) st.
Proof.
  intros Hs Hnow Hy Hm.
  assert (1 ≤ date_month now ≤ 12) as Hcur.
  { unfold datetime in Hnow. destruct (andb _ _) eqn:E; [|done].
    rewrite !andb_true_iff, !Z.leb_le in E. lia. }
  rewrite !(calendar_view_renders _ _ _ _ _ student) by
    (try done; rewrite ?shown_month_fallback, ?shown_month_valid by done; done).
  by rewrite shown_month_fallback, shown_month_valid.
Qed.

Lemma calendar_view_month_fallback_witness :
  calendar_view sample_now 1 (Some 2024) (Some 13) sample_db
  = Render None (CalendarHtml (calendar_page sample_db ana 1 2024 3))
  ∧ calendar_view sample_now 1 (Some 2024) (Some 13) sample_db
    = calendar_view sample_now 1 (Some 2024) (Some 3) sample_db.
Proof.
  apply (calendar_view_month_fallback sample_now 1 (Some 2024) 13 sample_db ana);
    [reflexivity|reflexivity|cbn; unfold MINYEAR, MAXYEAR; lia|lia].
Defined.

Lemma str_or_cases (x : option string) (dflt : string) :
  str_or x dflt
  = match x with
    | Some (String c s) => String c s
    | _ => dflt
    end.
Proof. by destruct x as [[|c s]|]. Qed.

(** C6, as the code has it: for an existing student, a year within
    1..9999 and a month within 1..12, the view renders a calendar whose
    query holds exactly that student's offenses dated within the month
    (first to last day included), in ascending date order, and whose
    mapping gives for each day of the month the details of that day's
    offenses in that order (no entry for a day without offense).  A detail
    is the capitalised type, a hyphen between spaces, the description or
    [No description] when it is missing or empty, and in parentheses the
    date: the year in decimal without leading zeros, which is four digits
    from the year 1000 on, then the month and the day on two digits. *)
Theorem calendar_view_month (now : date) (id year month : Z) (st : db)
    (student : Student.t) :
  get_student st id = Some student →
  MINYEAR ≤ year ≤ MAXYEAR →
  1 ≤ month ≤ 12 →
  ∃ c offs,
    calendar_view now id (Some year) (Some month) st = Render None (CalendarHtml c)
    ∧ cal_student c = student ∧ cal_year c = year ∧ cal_month c = month
    ∧ offs ≡ₚ filter (λ o, Offense.student_id o = id
                           ∧ in_month year month (Offense.date o))
                (offense_table st)
    ∧ StronglySorted
        (λ a b, date_leb (Offense.date a) (Offense.date b) = true) offs
    ∧ (∀ dd, cal_offense_dates c !! dd
             = match filter (λ o, date_day (Offense.date o) = dd) offs with
               | [] => None
               | os => Some (detail <$> os)
               end)
    ∧ (∀ o, detail o
            = capitalize (Offense.offense_type o) +:+ " - "
              +:+ match Offense.description o with
                  | Some (String ch s) => String ch s
                  | _ => "No description"
                  end
              +:+ " (" +:+ year_text (date_year (Offense.date o))
              +:+ "-" +:+ zero_padded 2 (date_month (Offense.date o))
              +:+ "-" +:+ zero_padded 2 (date_day (Offense.date o)) +:+ ")")
    ∧ (∀ y, 1000 ≤ y → year_text y = zero_padded 4 y).
Proof.
  intros Hs Hy Hm.
  exists (calendar_page st student id year month),
    (calendar_query st id (Date year month 1)
       (Date year month (monthrange_ndays year month))).
  split.
  { rewrite (calendar_view_renders _ _ _ _ _ student); try done.
    - cbn [default]; unfold Datatypes.id. by rewrite shown_month_valid.
    - by rewrite shown_month_valid. }
  do 3 (split; [reflexivity|]). split; [|split; [|split; [|split]]].
  - unfold calendar_query. rewrite order_by_Permutation.
    erewrite list_filter_iff; [reflexivity|].
    intros o. cbn. by rewrite <- in_month_bounds.
  - apply date_asc_sorted.
  - intros dd. cbn [cal_offense_dates calendar_page].
    rewrite append_detail_loop, lookup_empty. cbn [default]; unfold Datatypes.id.
    by destruct (filter _ _).
  - intros o. unfold detail, strftime_ymd. rewrite str_or_cases.
    by rewrite !append_assoc.
  - intros y Hy4. unfold year_text.
    by rewrite !(proj2 (Z.ltb_ge _ _)) by lia.
Qed.

Lemma calendar_view_month_witness :
  ∃ c, calendar_view sample_now 1 (Some 2024) (Some 3) sample_db
       = Render None (CalendarHtml c)
       ∧ cal_month c = 3
       ∧ cal_offense_dates c !! 15 = Some [detail fight].
Proof.
  destruct (calendar_view_month sample_now 1 2024 3 sample_db ana)
    as (c & offs & Hview & _ & _ & Hmonth & _ & _ & Hdates & _ & _);
    [reflexivity|unfold MINYEAR, MAXYEAR; lia|lia|].
  exists c. split; [exact Hview|]. split; [exact Hmonth|].
  injection Hview as <-. vm_compute. reflexivity.
Defined.

(** C6, as stated, fails on the text of a detail: the calendar of student
    1 for March 2024 shows the fight of the 15th with a hyphen, which is
    not the text with the spec's em dash; and the calendar of January 999
    shows the year of an offense of the 5th on three digits, not as YYYY. *)
Lemma calendar_detail_has_a_hyphen :
  calendar_day (calendar_view sample_now 1 (Some 2024) (Some 3) sample_db) 15
  = Some ["Major - Fight (2024-03-15)"]
  ∧ spec_detail fight = "Major " +:+ em_dash +:+ " Fight (2024-03-15)"
  ∧ calendar_day (calendar_view sample_now 1 (Some 2024) (Some 3) sample_db) 15
    ≠ Some [spec_detail fight]
  ∧ calendar_day (calendar_view sample_now 1 (Some 999) (Some 1) old_db) 5
    = Some ["Minor - Quarrel (999-01-05)"]
  ∧ spec_detail quarrel = "Minor " +:+ em_dash +:+ " Quarrel (0999-01-05)".
Proof.
  assert (calendar_day (calendar_view sample_now 1 (Some 2024) (Some 3) sample_db) 15
          = Some ["Major - Fight (2024-03-15)"]) as E
    by (vm_compute; reflexivity).
  split; [exact E|]. split; [vm_compute; reflexivity|].
  split; [|split; vm_compute; reflexivity].
  rewrite E. vm_compute. intros H. discriminate H.
Qed.

(** ** Referential integrity along a history *)

Lemma serve_ref_integrity (st : db) (r : request) :
  ref_integrity st → ref_integrity (serve st r).
Proof.
  intros Hri. destruct r as [f|i f|i|i f|i]; cbn [serve].
  - unfold add_student.
    destruct (StudentForm.validate f), (StudentForm.age_data f) as [a|]; try done.
    unfold commit. cbn [transaction exec mbind option_bind].
    destruct (sqlite_int a); [|done].
    intros o Ho. cbn in *. rewrite fmap_app. apply elem_of_app. left. by apply Hri.
  - unfold edit_student. destruct (get_student st i) as [s|]; [|done].
    destruct (StudentForm.validate f), (StudentForm.age_data f) as [a|]; try done.
    unfold commit. cbn [transaction exec mbind option_bind].
    destruct (sqlite_int a); [|done].
    intros o Ho. cbn in *. rewrite fmap_id_update_students. by apply Hri.
  - unfold delete_student. destruct (get_student st i) as [s|]; [|done].
    unfold commit. destruct (delete_student_states st i) as [_ ->]. cbn.
    by apply ref_integrity_cascade.
  - unfold add_offense. destruct (get_student st i) as [s|] eqn:Hs; [|done].
    destruct (OffenseForm.validate f), (OffenseForm.date f); try done.
    intros o Ho. cbn in *. apply elem_of_app in Ho as [Ho|Ho]; [by apply Hri|].
    apply list_elem_of_singleton in Ho as ->. cbn.
    apply get_student_Some in Hs as [Hs _]. by apply list_elem_of_fmap_2.
  - unfold delete_offense. destruct (get_offense st i) as [o'|]; [|done].
    intros o Ho. cbn in *. apply list_elem_of_filter in Ho as [_ Ho]. by apply Hri.
Qed.

(** Every database the routes can reach from the empty one has
    referential integrity. *)
Lemma history_ref_integrity (rs : list request) : ref_integrity (history rs).
Proof.
  induction rs as [|r rs IH] using rev_ind.
  - intros o Ho. by apply elem_of_nil in Ho.
  - rewrite history_snoc. by apply serve_ref_integrity.
Qed.

(** ** [LIKE] against substring containment *)


Lemma like_underscore (p s : string) :
  like (String "_" p) s
  = match after_char s with
    | None => false
    | Some s' => like p s'
    end.
Proof. reflexivity. Qed.






Lemma prefix_b_spec (t s : string) :
  prefix_b t s = true ↔ ∃ post, s = t +:+ post.
Proof.
  revert s. induction t as [|c t IH]; intros s.
  - split; [by exists s|done].
  - destruct s as [|c' s]; cbn [prefix_b].
    + split; [done|]. by intros [post [=]].
    + rewrite andb_true_iff, IH. split.
      * intros [->%Ascii.eqb_eq [post ->]]. by exists post.
      * intros [post [= -> ->]]. split; [apply Ascii.eqb_refl|by exists post].
Qed.

Lemma contains_b_spec (s t : string) : contains_b s t = true ↔ contains s t.
Proof.
  unfold contains. induction s as [|c s IH]; cbn [contains_b].
  - rewrite orb_false_r, prefix_b_spec. split.
    + intros [post ->]. by exists EmptyString, post.
    + intros ([|c pre] & post & H); [by exists post|done].
  - rewrite orb_true_iff, prefix_b_spec, IH. split.
    + intros [[post ->]|(pre & post & ->)].
      * by exists EmptyString, post.
      * by exists (String c pre), post.
    + intros ([|c' pre] & post & H).
      * left. by exists post.
      * right. injection H as -> ->. by exists pre, post.
Qed.

Lemma lower_app (a b : string) : lower (a +:+ b) = lower a +:+ lower b.
Proof.
  induction a as [|c a IH]; [done|].
  change (String (lower_ascii c) (lower (a +:+ b))
          = String (lower_ascii c) (lower a +:+ lower b)).
  by rewrite IH.
Qed.





(** ** Search over all offenses *)

Lemma elem_of_offense_join_student st o s :
  (o, s) ∈ offense_join_student st
  ↔ o ∈ offense_table st ∧ s ∈ student_table st
    ∧ Offense.student_id o = Student.id s.
Proof.
  unfold offense_join_student. rewrite list_elem_of_bind. split.
  - intros (o' & Hin & Ho'). apply list_elem_of_bind in Hin as (s' & Hin & Hs').
    destruct (decide _); [|by apply elem_of_nil in Hin].
    apply list_elem_of_singleton in Hin as [= -> ->]. done.
  - intros (Ho & Hs & Heq). exists o. split; [|done].
    apply list_elem_of_bind. exists s. split; [|done].
    rewrite decide_True by done. by left.
Qed.

Lemma rows_before_offset (page_arg : option Z) :
  Z.of_nat (rows_before page_arg)
  = ((if default 1 page_arg <? 1 then 1 else default 1 page_arg) - 1) * 20.
Proof. unfold rows_before. destruct (Z.ltb_spec (default 1 page_arg) 1); lia. Qed.

Lemma all_offenses_cases (search_arg : string) (page_arg : option Z) (st : db) :
  all_offenses search_arg page_arg st
  = if page_fits page_arg
    then Render None
           (AllOffensesHtml
              (mkPagination
                 (take 20
                    (drop (rows_before page_arg)
                       (all_offenses_query (strip search_arg) st)))
                 (Z.max 1 (default 1 page_arg)) 20
                 (Z.of_nat (length (all_offenses_query (strip search_arg) st))))
              (strip search_arg))
    else InternalError.
Proof.
  unfold all_offenses, paginate, page_fits. cbv zeta.
  rewrite <- rows_before_offset, Nat2Z.id.
  destruct (sqlite_int _); [|done]. do 3 f_equal.
  destruct (Z.ltb_spec (default 1 page_arg) 1); lia.
Qed.

(** C3 at an input where it fails: the search term is a single
    underscore.  No student name, description or offense type of the
    sample database contains an underscore, and yet the first page lists
    all four offenses (by date, latest first), because [_] is a wildcard
    of [LIKE]. *)
Theorem all_offenses_underscore_matches_all :
  strip "_" = "_"
  ∧ page_items (all_offenses "_" (Some 1) sample_db)
    = Some [late; fight; absence; no_id]
  ∧ ∀ o s, o ∈ offense_table sample_db → s ∈ student_table sample_db →
           ¬ spec_match "_" o s.
Proof.
  split; [reflexivity|]. split; [vm_compute; reflexivity|].
  intros o s Ho Hs. unfold spec_match, icontains.
  cbv [sample_db offense_table student_table] in Ho, Hs.
  repeat (apply elem_of_cons in Ho as [->|Ho]); [..|by apply elem_of_nil in Ho];
    (repeat (apply elem_of_cons in Hs as [->|Hs]); [..|by apply elem_of_nil in Hs]);
    (intros [H|[(dsc & Hd & H)|H]];
     [|injection Hd as <- || discriminate Hd|];
     apply contains_b_spec in H; vm_compute in H; discriminate H).
Qed.




(** ** Adding and editing students *)

Lemma db_eta (st : db) :
  Db (user_table st) (student_table st) (offense_table st) = st.
Proof. by destruct st. Qed.

Lemma next_rowid_not_elem_of (ids : list Z) : next_rowid ids ∉ ids.
Proof.
  intros Hin. pose proof (next_rowid_fresh ids) as Hf.
  rewrite Forall_forall in Hf. apply Hf in Hin. lia.
Qed.

Lemma filter_id_fresh {A} (f : A → Z) (l : list A) :
  filter (λ x, f x = next_rowid (f <$> l)) l = [].
Proof.
  destruct (filter _ l) as [|x l'] eqn:E; [done|].
  assert (x ∈ filter (λ x, f x = next_rowid (f <$> l)) l) as Hx by (rewrite E; left).
  apply list_elem_of_filter in Hx as [Heq Hx].
  destruct (next_rowid_not_elem_of (f <$> l)). rewrite <- Heq.
  by apply list_elem_of_fmap_2.
Qed.

Lemma filter_ne_fresh {A} (f : A → Z) (l : list A) :
  filter (λ x, f x ≠ next_rowid (f <$> l)) l = l.
Proof.
  generalize (next_rowid_not_elem_of (f <$> l)). generalize (next_rowid (f <$> l)).
  intros i Hi. induction l as [|x l IH]; [done|].
  rewrite fmap_cons, not_elem_of_cons in Hi. destruct Hi as [Hne Hi].
  rewrite filter_cons_True by done. by rewrite IH.
Qed.

Lemma validate_age_data (f : StudentForm.t) :
  StudentForm.validate f = true →
  ∃ a, StudentForm.age f = Some a ∧ a ≠ 0 ∧ StudentForm.age_data f = Some a.
Proof.
  intros Hv. unfold StudentForm.validate in Hv.
  repeat (apply andb_prop in Hv as [Hv ?]).
  match goal with H : bool_decide (is_Some _) = true |- _ =>
    apply bool_decide_eq_true in H as [a Ha] end.
  exists a. unfold StudentForm.age_data in *.
  destruct (StudentForm.age f) as [a'|]; [|done].
  destruct (decide (a' = 0)); [done|]. by simplify_eq.
Qed.

(** A string of whitespace only strips to nothing. *)
Lemma all_space_lstrip (s : string) : all_space s = true → lstrip s = EmptyString.
Proof.
  assert (∀ n s, (String.length s ≤ n)%nat → all_space s = true → lstrip s = EmptyString)
    as H; [|by apply (H (String.length s))].
  clear s. induction n as [|n IH]; intros s Hn Hs.
  { destruct s; [done|]. cbn [String.length] in Hn. lia. }
  destruct s as [|c1 s1]; [done|]. cbn [all_space lstrip] in *.
  cbn [String.length] in Hn.
  destruct (is_space c1); [apply IH; [lia|done]|].
  destruct s1 as [|c2 s2]; [done|]. cbn [String.length] in Hn.
  destruct (is_space2 c1 c2); [apply IH; [lia|done]|].
  destruct s2 as [|c3 s3]; [done|]. cbn [String.length] in Hn.
  apply andb_prop in Hs as [-> Hs]. apply IH; [lia|done].
Qed.

Lemma data_required_all_space (s : string) :
  all_space s = true → data_required s = false.
Proof.
  intros Hs. unfold data_required, strip. rewrite all_space_lstrip by done.
  apply andb_false_r.
Qed.

(** [add_student]: a form that validates, whose age fits a 64-bit
    integer, adds one row, with a fresh id and the fields of the form,
    which [get_student] then finds, while the lookup of every other id,
    the users and the offenses are unchanged.  With an age that does not
    fit, the insertion raises an error and nothing is stored.  A form that
    validates has an age other than 0; an age of 0 is refused like a
    missing one, and so is a name of whitespace only (Unicode whitespace
    included); a refused form leaves the database as it is. *)
Theorem add_student_then_get :
  (∀ f st a,
     StudentForm.validate f = true →
     StudentForm.age f = Some a →
     sqlite_int a = true →
     ∃ new,
       new = student_of_form (next_rowid (Student.id <$> student_table st)) f a
       ∧ add_student f st
         = (Redirect (Some "Student added successfully.") "students" None,
            Db (user_table st) (student_table st ++ [new]) (offense_table st))
       ∧ get_student st (Student.id new) = None
       ∧ get_student (add_student f st).2 (Student.id new) = Some new
       ∧ ∀ j, j ≠ Student.id new →
              get_student (add_student f st).2 j = get_student st j)
  ∧ (∀ f st a,
       StudentForm.validate f = true →
       StudentForm.age f = Some a →
       sqlite_int a = false →
       add_student f st = (InternalError, st))
  ∧ (∀ f, StudentForm.validate f = true → ∃ a, StudentForm.age f = Some a ∧ a ≠ 0)
  ∧ (∀ f,
       StudentForm.age f = Some 0 ∨ StudentForm.age f = None
       ∨ all_space (StudentForm.name f) = true →
       StudentForm.validate f = false)
  ∧ (∀ f st,
       StudentForm.validate f = false →
       add_student f st = (Render None (StudentFormHtml "Add Student"), st)).
Proof.
  split; [|split; [|split; [|split]]].
  - intros f st a Hv Ha Hfit.
    destruct (validate_age_data f Hv) as (a' & Ha' & Hne & Hd).
    assert (a' = a) as -> by congruence.
    exists (student_of_form (next_rowid (Student.id <$> student_table st)) f a).
    split; [done|].
    assert (add_student f st
            = (Redirect (Some "Student added successfully.") "students" None,
               Db (user_table st)
                 (student_table st
                    ++ [student_of_form (next_rowid (Student.id <$> student_table st)) f a])
                 (offense_table st))) as Hadd.
    { unfold add_student. rewrite Hv, Hd. unfold commit.
      cbn [transaction exec mbind option_bind]. by rewrite Hfit. }
    rewrite Hadd. split; [done|]. cbn [snd student_of_form Student.id].
    unfold get_student. cbn [student_table]. split; [|split].
    + by rewrite filter_id_fresh.
    + rewrite filter_app, filter_id_fresh, app_nil_l.
      by rewrite filter_cons_True.
    + intros j Hj. rewrite filter_app, filter_cons_False by (cbn; congruence).
      by rewrite filter_nil, app_nil_r.
  - intros f st a Hv Ha Hfit.
    destruct (validate_age_data f Hv) as (a' & Ha' & Hne & Hd).
    assert (a' = a) as -> by congruence.
    unfold add_student. rewrite Hv, Hd. unfold commit.
    cbn [transaction exec mbind option_bind]. by rewrite Hfit.
  - intros f Hv. destruct (validate_age_data f Hv) as (a & Ha & Hne & _). by exists a.
  - intros f Hf. unfold StudentForm.validate.
    destruct Hf as [Hage|[Hage|Hname]].
    + unfold StudentForm.age_data. rewrite Hage. cbn. by rewrite andb_false_r.
    + unfold StudentForm.age_data. rewrite Hage. cbn. by rewrite andb_false_r.
    + by rewrite data_required_all_space.
  - intros f st Hv. unfold add_student. by rewrite Hv.
Qed.

Lemma add_student_then_get_witness :
  ∃ new,
    new = student_of_form (next_rowid (Student.id <$> student_table sample_db))
            dan_form 17
    ∧ add_student dan_form sample_db
      = (Redirect (Some "Student added successfully.") "students" None,
         Db (user_table sample_db) (student_table sample_db ++ [new])
           (offense_table sample_db))
    ∧ get_student sample_db (Student.id new) = None
    ∧ get_student (add_student dan_form sample_db).2 (Student.id new) = Some new
    ∧ ∀ j, j ≠ Student.id new →
           get_student (add_student dan_form sample_db).2 j = get_student sample_db j.
Proof.
  apply (proj1 add_student_then_get dan_form sample_db 17); reflexivity.
Defined.

Lemma filter_id_update (i j : Z) (new : Student.t) (l : list Student.t) :
  Student.id new = i →
  filter (λ s, Student.id s = j)
    ((λ s, if decide (Student.id s = i) then new else s) <$> l)
  = (λ s, if decide (Student.id s = i) then new else s)
      <$> filter (λ s, Student.id s = j) l.
Proof.
  intros Hnew. induction l as [|s l IH]; [done|].
  rewrite fmap_cons, !filter_cons.
  destruct (decide (Student.id s = i)) as [Hs|Hs].
  - destruct (decide (Student.id new = j)), (decide (Student.id s = j));
      try congruence.
    rewrite fmap_cons, decide_True by done. by rewrite IH.
  - destruct (decide (Student.id s = j)); [|exact IH].
    rewrite fmap_cons, decide_False by done. by rewrite IH.
Qed.

(** [edit_student]: for a student that exists, a form that validates and
    an age that fits a 64-bit integer, the row of that id takes the fields
    of the form and keeps its id and its place, every other lookup, the
    users and the offenses (so also the student's own offenses) are
    unchanged; with an age that does not fit, the update raises an error
    and nothing changes.  An id that can be bound to the lookup and does
    not exist is a 404, a form that does not validate shows the form
    again, and neither changes the database. *)
Theorem edit_student_replaces_fields :
  (∀ id f st old a,
     get_student st id = Some old →
     StudentForm.validate f = true →
     StudentForm.age f = Some a →
     sqlite_int a = true →
     (edit_student id f st).1
     = Redirect (Some "Student updated successfully.") "students" None
     ∧ get_student (edit_student id f st).2 id = Some (student_of_form id f a)
     ∧ (∀ j, j ≠ id → get_student (edit_student id f st).2 j = get_student st j)
     ∧ Student.id <$> student_table (edit_student id f st).2
       = Student.id <$> student_table st
     ∧ offense_table (edit_student id f st).2 = offense_table st
     ∧ user_table (edit_student id f st).2 = user_table st)
  ∧ (∀ id f st old a,
       get_student st id = Some old →
       StudentForm.validate f = true →
       StudentForm.age f = Some a →
       sqlite_int a = false →
       edit_student id f st = (InternalError, st))
  ∧ (∀ id f st,
       sqlite_int id = true →
       get_student st id = None →
       edit_student id f st = (NotFound, st))
  ∧ (∀ id f st, StudentForm.validate f = false → (edit_student id f st).2 = st).
Proof.
  split; [|split; [|split]].
  - intros id f st old a Hold Hv Ha Hfit.
    destruct (validate_age_data f Hv) as (a' & Ha' & Hne & Hd).
    assert (a' = a) as -> by congruence.
    destruct (get_student_Some _ _ _ Hold) as [_ Hid].
    assert (edit_student id f st
            = (Redirect (Some "Student updated successfully.") "students" None,
               Db (user_table st)
                 ((λ s, if decide (Student.id s = id)
                        then student_of_form id f a else s) <$> student_table st)
                 (offense_table st))) as ->.
    { unfold edit_student. rewrite Hold, Hv, Hd. unfold commit.
      cbn [transaction exec mbind option_bind]. by rewrite Hfit, Hid. }
    cbn [fst snd student_table offense_table user_table].
    split; [done|]. split; [|split; [|split; [|done]]].
    + unfold get_student in *. cbn [student_table].
      rewrite filter_id_update by done.
      destruct (filter _ (student_table st)) as [|s l] eqn:E; [done|].
      cbn in Hold. simplify_eq. cbn. by rewrite decide_True.
    + intros j Hj. unfold get_student. cbn [student_table].
      rewrite filter_id_update by done.
      destruct (filter _ (student_table st)) as [|s l] eqn:E; [done|].
      assert (s ∈ filter (λ s, Student.id s = j) (student_table st)) as Hs
        by (rewrite E; left).
      apply list_elem_of_filter in Hs as [Hs _].
      cbn. rewrite decide_False by congruence. done.
    + apply fmap_id_update_students.
  - intros id f st old a Hold Hv Ha Hfit.
    destruct (validate_age_data f Hv) as (a' & Ha' & Hne & Hd).
    assert (a' = a) as -> by congruence.
    unfold edit_student. rewrite Hold, Hv, Hd. unfold commit.
    cbn [transaction exec mbind option_bind]. by rewrite Hfit.
  - intros id f st _ Hnone. unfold edit_student. by rewrite Hnone.
  - intros id f st Hv. unfold edit_student.
    destruct (get_student st id); [|done]. by rewrite Hv.
Qed.

Lemma edit_student_replaces_fields_witness :
  (edit_student 2 dan_form sample_db).1
  = Redirect (Some "Student updated successfully.") "students" None
  ∧ get_student (edit_student 2 dan_form sample_db).2 2
    = Some (student_of_form 2 dan_form 17)
  ∧ (∀ j, j ≠ 2 →
         get_student (edit_student 2 dan_form sample_db).2 j = get_student sample_db j)
    ∧ Student.id <$> student_table (edit_student 2 dan_form sample_db).2
      = Student.id <$> student_table sample_db
    ∧ offense_table (edit_student 2 dan_form sample_db).2 = offense_table sample_db
    ∧ user_table (edit_student 2 dan_form sample_db).2 = user_table sample_db.
Proof.
  apply (proj1 edit_student_replaces_fields 2 dan_form sample_db ben 17); reflexivity.
Defined.

(** ** Adding offenses *)

Lemma validate_offense_date (f : OffenseForm.t) :
  OffenseForm.validate f = true → ∃ dt, OffenseForm.date f = Some dt.
Proof.
  intros Hv. unfold OffenseForm.validate in Hv.
  apply andb_prop in Hv as [_ Hd]. by apply bool_decide_eq_true in Hd as [dt Hd]; eauto.
Qed.

(** [add_offense]: for a student that exists and a form that validates,
    one offense with a fresh id, the student's id and the fields of the
    form is added; the student's offense list then ends with it, and the
    lists of all other students, the students and the users are unchanged.
    A student id that can be bound to the lookup and does not exist is a
    404, and an empty category (the placeholder choice) or a missing date
    is refused; neither changes the database. *)
Theorem add_offense_appends :
  (∀ id f st student,
     get_student st id = Some student →
     OffenseForm.validate f = true →
     ∃ dt new,
       OffenseForm.date f = Some dt
       ∧ new = offense_of_form (next_rowid (Offense.id <$> offense_table st)) id f dt
       ∧ add_offense id f st
         = (Redirect (Some "Offense added successfully.") "offenses" (Some id),
            Db (user_table st) (student_table st) (offense_table st ++ [new]))
       ∧ get_offense st (Offense.id new) = None
       ∧ offenses id (add_offense id f st).2
         = Render None (OffensesHtml student (offenses_of st id ++ [new]))
       ∧ ∀ j, j ≠ id → offenses_of (add_offense id f st).2 j = offenses_of st j)
  ∧ (∀ id f st,
       sqlite_int id = true →
       get_student st id = None →
       add_offense id f st = (NotFound, st))
  ∧ (∀ id f st,
       OffenseForm.category f = EmptyString ∨ OffenseForm.date f = None →
       (add_offense id f st).2 = st).
Proof.
  split; [|split].
  - intros id f st student Hs Hv. destruct (validate_offense_date f Hv) as [dt Hd].
    destruct (get_student_Some _ _ _ Hs) as [_ Hid].
    exists dt, (offense_of_form (next_rowid (Offense.id <$> offense_table st)) id f dt).
    split; [done|]. split; [done|].
    assert (add_offense id f st
            = (Redirect (Some "Offense added successfully.") "offenses" (Some id),
               Db (user_table st) (student_table st)
                 (offense_table st
                    ++ [offense_of_form (next_rowid (Offense.id <$> offense_table st))
                          id f dt]))) as ->.
    { unfold add_offense. rewrite Hs, Hv, Hd. unfold commit. cbn. by rewrite Hid. }
    split; [done|]. cbn [snd]. split; [|split].
    + unfold get_offense. cbn [offense_of_form Offense.id]. by rewrite filter_id_fresh.
    + unfold offenses, get_student, offenses_of in *.
      cbn [student_table offense_table]. rewrite Hs.
      rewrite filter_app. by rewrite filter_cons_True.
    + intros j Hj. unfold offenses_of. cbn [offense_table].
      rewrite filter_app, filter_cons_False by (cbn; congruence).
      by rewrite filter_nil, app_nil_r.
  - intros id f st _ Hnone. unfold add_offense. by rewrite Hnone.
  - intros id f st Hbad. unfold add_offense.
    destruct (get_student st id); [|done].
    destruct Hbad as [Hc|Hd].
    + assert (OffenseForm.validate f = false) as ->; [|done].
      unfold OffenseForm.validate. rewrite Hc. cbn. by rewrite !andb_false_r.
    + rewrite Hd. by destruct (OffenseForm.validate f).
Qed.

Lemma add_offense_appends_witness :
  ∃ dt new,
    OffenseForm.date tardy_form = Some dt
    ∧ new = offense_of_form (next_rowid (Offense.id <$> offense_table sample_db))
              3 tardy_form dt
    ∧ add_offense 3 tardy_form sample_db
      = (Redirect (Some "Offense added successfully.") "offenses" (Some 3),
         Db (user_table sample_db) (student_table sample_db)
           (offense_table sample_db ++ [new]))
    ∧ get_offense sample_db (Offense.id new) = None
    ∧ offenses 3 (add_offense 3 tardy_form sample_db).2
      = Render None (OffensesHtml cy (offenses_of sample_db 3 ++ [new]))
    ∧ ∀ j, j ≠ 3 →
           offenses_of (add_offense 3 tardy_form sample_db).2 j
           = offenses_of sample_db j.
Proof.
  apply (proj1 add_offense_appends 3 tardy_form sample_db cy); reflexivity.
Defined.

(** ** Undoing an addition *)

Lemma filter_ne_fresh_snoc {A} (f : A → Z) (l : list A) (x : A) :
  f x = next_rowid (f <$> l) →
  filter (λ y, f y ≠ next_rowid (f <$> l)) (l ++ [x]) = l.
Proof.
  intros Hx. rewrite filter_app, filter_ne_fresh.
  rewrite filter_cons_False by (intros H; by apply H).
  by rewrite filter_nil, app_nil_r.
Qed.

(** Deleting the offense that [add_offense] has just added gives back
    the database as it was before the addition. *)
Theorem add_then_delete_offense (id : Z) (f : OffenseForm.t) (st : db) :
  is_Some (get_student st id) →
  OffenseForm.validate f = true →
  delete_offense (next_rowid (Offense.id <$> offense_table st)) (add_offense id f st).2
  = (Redirect (Some "Offense deleted successfully.") "offenses" (Some id), st).
Proof.
  intros [student Hs] Hv. destruct (validate_offense_date f Hv) as [dt Hd].
  destruct (get_student_Some _ _ _ Hs) as [_ Hid].
  assert ((add_offense id f st).2
          = Db (user_table st) (student_table st)
              (offense_table st
                 ++ [offense_of_form (next_rowid (Offense.id <$> offense_table st))
                       id f dt])) as ->.
  { unfold add_offense. rewrite Hs, Hv, Hd. unfold commit. cbn. by rewrite Hid. }
  unfold delete_offense, get_offense. cbn [offense_table].
  rewrite filter_app, filter_id_fresh, app_nil_l.
  rewrite filter_cons_True by done. cbn [head]. unfold commit.
  cbn [transaction exec mbind option_bind offense_table student_table user_table].
  rewrite (filter_ne_fresh_snoc Offense.id) by done.
  by rewrite db_eta.
Qed.

Lemma add_then_delete_offense_witness :
  delete_offense (next_rowid (Offense.id <$> offense_table sample_db))
    (add_offense 3 tardy_form sample_db).2
  = (Redirect (Some "Offense deleted successfully.") "offenses" (Some 3), sample_db).
Proof.
  apply (add_then_delete_offense 3 tardy_form sample_db); [vm_compute; eauto|reflexivity].
Defined.

Lemma ref_integrity_no_offense_of_fresh (st : db) :
  ref_integrity st →
  filter (λ o, Offense.student_id o ≠ next_rowid (Student.id <$> student_table st))
    (offense_table st) = offense_table st.
Proof.
  intros Hri. pose proof (next_rowid_not_elem_of (Student.id <$> student_table st)) as Hf.
  revert Hri. unfold ref_integrity.
  generalize (next_rowid (Student.id <$> student_table st)) Hf.
  generalize (Student.id <$> student_table st).
  intros ids i Hi. induction (offense_table st) as [|o l IH]; intros Hri; [done|].
  rewrite filter_cons_True.
  - rewrite IH; [done|]. intros o' Ho'. apply Hri. by right.
  - intros Heq. apply Hi. rewrite <- Heq. apply Hri. by left.
Qed.

(** Deleting the student that [add_student] has just added, from a form
    that validates with an age that fits a 64-bit integer, gives back the
    database as it was before the addition, provided no offense referred
    to a missing student there. *)
Theorem add_then_delete_student (f : StudentForm.t) (a : Z) (st : db) :
  StudentForm.validate f = true →
  StudentForm.age f = Some a →
  sqlite_int a = true →
  ref_integrity st →
  delete_student (next_rowid (Student.id <$> student_table st)) (add_student f st).2
  = (Redirect (Some "Student deleted successfully.") "students" None, st).
Proof.
  intros Hv Ha Hfit Hri. destruct (add_student_table f st Hv) as (a' & Ha' & ->).
  assert (a' = a) as -> by congruence. rewrite Hfit.
  change (Student.mk ?i (StudentForm.name f) a (StudentForm.gender f)
            (StudentForm.grade_level f) (StudentForm.section f) (StudentForm.strand f))
    with (student_of_form i f a).
  unfold delete_student, get_student. cbn [student_table].
  rewrite filter_app, filter_id_fresh, app_nil_l.
  rewrite filter_cons_True by done. cbn [head]. unfold commit.
  match goal with |- context [transaction ?ss ?s] =>
    destruct (delete_student_states s (next_rowid (Student.id <$> student_table st)))
      as [_ Htx] end.
  rewrite Htx. cbn [student_table offense_table user_table].
  rewrite (filter_ne_fresh_snoc Student.id) by done.
  rewrite ref_integrity_no_offense_of_fresh by done.
  by rewrite db_eta.
Qed.

Lemma add_then_delete_student_witness :
  delete_student (next_rowid (Student.id <$> student_table sample_db))
    (add_student dan_form sample_db).2
  = (Redirect (Some "Student deleted successfully.") "students" None, sample_db).
Proof.
  apply (add_then_delete_student dan_form 17 sample_db);
    [reflexivity|reflexivity|reflexivity|exact sample_db_ref_integrity].
Defined.

(** ** What the routes keep true *)

Lemma serve_cases (st : db) (r : request) :
  serve st r = st
  ∨ (∃ f a, StudentForm.validate f = true ∧ StudentForm.age_data f = Some a
       ∧ serve st r
         = Db (user_table st)
             (student_table st
                ++ [student_of_form (next_rowid (Student.id <$> student_table st)) f a])
             (offense_table st))
  ∨ (∃ i f a, StudentForm.validate f = true ∧ StudentForm.age_data f = Some a
       ∧ serve st r
         = Db (user_table st)
             ((λ s, if decide (Student.id s = i) then student_of_form i f a else s)
                <$> student_table st)
             (offense_table st))
  ∨ (∃ i, serve st r
          = Db (user_table st)
              (filter (λ s, Student.id s ≠ i) (student_table st))
              (filter (λ o, Offense.student_id o ≠ i) (offense_table st)))
  ∨ (∃ i f dt, i ∈ Student.id <$> student_table st
       ∧ OffenseForm.validate f = true
       ∧ serve st r
         = Db (user_table st) (student_table st)
             (offense_table st
                ++ [offense_of_form (next_rowid (Offense.id <$> offense_table st))
                      i f dt]))
  ∨ (∃ i, serve st r
          = Db (user_table st) (student_table st)
              (filter (λ o, Offense.id o ≠ i) (offense_table st))).
Proof.
  destruct r as [f|i f|i|i f|i]; cbn [serve].
  - unfold add_student.
    destruct (StudentForm.validate f) eqn:Hv; [|by left].
    destruct (StudentForm.age_data f) as [a|] eqn:Ha; [|by left].
    unfold commit. cbn [transaction exec mbind option_bind].
    destruct (sqlite_int a); [|by left].
    right. left. by exists f, a.
  - unfold edit_student. destruct (get_student st i) as [old|] eqn:Hold; [|by left].
    destruct (StudentForm.validate f) eqn:Hv; [|by left].
    destruct (StudentForm.age_data f) as [a|] eqn:Ha; [|by left].
    unfold commit. cbn [transaction exec mbind option_bind].
    destruct (sqlite_int a); [|by left].
    right. right. left. exists i, f, a.
    destruct (get_student_Some _ _ _ Hold) as [_ ->]. done.
  - unfold delete_student. destruct (get_student st i) as [old|]; [|by left].
    do 3 right. left. exists i. unfold commit.
    by destruct (delete_student_states st i) as [_ ->].
  - unfold add_offense. destruct (get_student st i) as [s|] eqn:Hs; [|by left].
    destruct (OffenseForm.validate f) eqn:Hv; [|by left].
    destruct (OffenseForm.date f) as [dt|] eqn:Hd; [|by left].
    do 4 right. left. exists i, f, dt.
    destruct (get_student_Some _ _ _ Hs) as [Hin Hid].
    split; [|split; [done|]].
    + rewrite <- Hid. by apply list_elem_of_fmap_2.
    + unfold commit. cbn. by rewrite Hid.
  - unfold delete_offense. destruct (get_offense st i) as [o|]; [|by left].
    do 5 right. by exists i.
Qed.

Lemma ascending_fmap_filter {A} (f : A → Z) (P : A → Prop) `{∀ x, Decision (P x)}
    (l : list A) :
  StronglySorted Z.lt (f <$> l) → StronglySorted Z.lt (f <$> filter P l).
Proof.
  induction l as [|x l IH]; [done|].
  rewrite fmap_cons. intros [Hall Hs]%StronglySorted_cons.
  rewrite filter_cons. destruct (decide (P x)); [|by apply IH].
  rewrite fmap_cons. apply StronglySorted_cons. split; [|by apply IH].
  rewrite Forall_forall in Hall |- *.
  intros j (y & -> & Hy)%list_elem_of_fmap.
  apply list_elem_of_filter in Hy as [_ Hy]. apply Hall.
  by apply list_elem_of_fmap_2.
Qed.

Lemma in_choices_elem_of (choices : list string) (s : string) :
  in_choices choices s = true → s ∈ choices.
Proof. apply bool_decide_eq_true. Qed.

Lemma data_required_nonempty (s : string) : data_required s = true → s ≠ EmptyString.
Proof. intros H ->. discriminate H. Qed.

Lemma validate_valid_student (i : Z) (f : StudentForm.t) (a : Z) :
  StudentForm.validate f = true → StudentForm.age_data f = Some a →
  valid_student (student_of_form i f a).
Proof.
  intros Hv Ha. unfold StudentForm.validate in Hv.
  repeat (apply andb_prop in Hv as [Hv ?]).
  unfold valid_student. cbn.
  repeat split; try (by apply in_choices_elem_of).
  - intros Hname. rewrite Hname in Hv. discriminate Hv.
  - unfold StudentForm.age_data in Ha. destruct (StudentForm.age f) as [a'|]; [|done].
    destruct (decide (a' = 0)); [done|]. by simplify_eq.
Qed.

Lemma validate_valid_offense (i sid : Z) (f : OffenseForm.t) (dt : date) :
  OffenseForm.validate f = true → valid_offense (offense_of_form i sid f dt).
Proof.
  intros Hv. unfold OffenseForm.validate in Hv.
  repeat (apply andb_prop in Hv as [Hv ?]).
  unfold valid_offense. cbn.
  repeat split; try (by apply in_choices_elem_of).
  by apply data_required_nonempty.
Qed.

Lemma Forall_filter_keeps {A} (Q P : A → Prop) `{∀ x, Decision (P x)} (l : list A) :
  Forall Q l → Forall Q (filter P l).
Proof.
  rewrite !Forall_forall. intros HQ x [_ Hx]%list_elem_of_filter. by apply HQ.
Qed.

Lemma serve_well_formed (st : db) (r : request) :
  well_formed st → well_formed (serve st r).
Proof.
  intros (Hri & Hs & Ho & Hvs & Hvo).
  split; [by apply serve_ref_integrity|].
  destruct (serve_cases st r)
    as [->|[(f & a & Hv & Ha & ->)|[(i & f & a & Hv & Ha & ->)|[(i & ->)|
        [(i & f & dt & Hin & Hv & ->)|(i & ->)]]]]];
    cbn [student_table offense_table]; try done.
  - repeat split; try done.
    + rewrite fmap_app. by apply ascending_snoc.
    + apply Forall_app. split; [done|].
      constructor; [by apply validate_valid_student|constructor].
  - repeat split; try done.
    + unfold student_of_form. by rewrite fmap_id_update_students.
    + rewrite Forall_fmap. eapply Forall_impl; [exact Hvs|].
      intros s Hvalid. cbn. destruct (decide _); [|done].
      by apply validate_valid_student.
  - repeat split.
    + by apply ascending_fmap_filter.
    + by apply ascending_fmap_filter.
    + by apply Forall_filter_keeps.
    + by apply Forall_filter_keeps.
  - repeat split; try done.
    + rewrite fmap_app. by apply ascending_snoc.
    + apply Forall_app. split; [done|].
      constructor; [by apply validate_valid_offense|constructor].
  - repeat split; try done.
    + by apply ascending_fmap_filter.
    + by apply Forall_filter_keeps.
Qed.

Lemma history_well_formed (rs : list request) : well_formed (history rs).
Proof.
  induction rs as [|r rs IH] using rev_ind.
  - repeat split; try constructor. intros o Ho. by apply elem_of_nil in Ho.
  - rewrite history_snoc. by apply serve_well_formed.
Qed.

Lemma ascending_lookup {A} (f : A → Z) (l : list A) (x : A) :
  StronglySorted Z.lt (f <$> l) → x ∈ l →
  head (filter (λ y, f y = f x) l) = Some x.
Proof.
  induction l as [|y l IH]; intros Hs Hx; [by apply elem_of_nil in Hx|].
  rewrite fmap_cons in Hs. apply StronglySorted_cons in Hs as [Hall Hs].
  apply elem_of_cons in Hx as [->|Hx].
  - by rewrite filter_cons_True.
  - rewrite filter_cons_False; [by apply IH|].
    rewrite Forall_forall in Hall.
    specialize (Hall (f x) (list_elem_of_fmap_2 f _ _ Hx)). lia.
Qed.

(** After any history of requests on a fresh database: every offense
    belongs to a stored student; the ids of students and of offenses are
    distinct, and looking a stored row up by its id finds that row; every
    stored student and offense has the fields the forms accept (gender,
    grade level, section, strand, offense type and category within their
    choices, a name, a non-empty category, an age other than 0). *)
Theorem history_keeps_well_formed (rs : list request) :
  ref_integrity (history rs)
  ∧ NoDup (Student.id <$> student_table (history rs))
  ∧ NoDup (Offense.id <$> offense_table (history rs))
  ∧ (∀ s, s ∈ student_table (history rs) →
          get_student (history rs) (Student.id s) = Some s)
  ∧ (∀ o, o ∈ offense_table (history rs) →
          get_offense (history rs) (Offense.id o) = Some o)
  ∧ Forall valid_student (student_table (history rs))
  ∧ Forall valid_offense (offense_table (history rs)).
Proof.
  destruct (history_well_formed rs) as (Hri & Hs & Ho & Hvs & Hvo).
  assert (∀ ids, StronglySorted Z.lt ids → NoDup ids) as Hnd.
  { induction 1 as [|i ids _ IH Hall]; constructor; [|done].
    intros Hin. rewrite Forall_forall in Hall. specialize (Hall _ Hin). lia. }
  repeat split; try done; try by apply Hnd.
  - intros s Hin. by apply (ascending_lookup Student.id).
  - intros o Hin. by apply (ascending_lookup Offense.id).
Qed.

(** ** The aggregates on the databases the routes reach *)

Lemma type_zeros_is_Some (k : string) :
  is_Some (type_zeros !! k) → k ∈ OffenseForm.offense_type_choices.
Proof.
  unfold type_zeros, OffenseForm.offense_type_choices.
  rewrite !lookup_insert. repeat case_decide; subst.
  - intros _. set_solver.
  - intros _. set_solver.
  - intros _. set_solver.
  - rewrite lookup_empty. by intros [? ?].
Qed.

Lemma gender_zeros_is_Some (k : string) :
  is_Some (gender_zeros !! k) → k ∈ StudentForm.gender_choices.
Proof.
  unfold gender_zeros, StudentForm.gender_choices.
  rewrite !lookup_insert. repeat case_decide; subst.
  - intros _. set_solver.
  - intros _. set_solver.
  - rewrite lookup_empty. by intros [? ?].
Qed.

Lemma count_by_type_joined st g ty :
  count_by_type st g ty ≠ 0%nat →
  ∃ s o, s ∈ student_table st ∧ o ∈ offense_table st
         ∧ Student.grade_level s = g ∧ Offense.offense_type o = ty.
Proof.
  unfold count_by_type. destruct (filter _ _) as [|[s o] l] eqn:E; [done|]. intros _.
  assert ((s, o) ∈ filter (λ so, Student.grade_level so.1 = g
                                 ∧ Offense.offense_type so.2 = ty)
                      (student_join_offense st)) as Hin by (rewrite E; left).
  apply list_elem_of_filter in Hin as [[Hg Hty] Hin].
  apply elem_of_student_join_offense in Hin as (Hs & Ho & _). by exists s, o.
Qed.

Lemma count_by_gender_joined st g x :
  count_by_gender st g x ≠ 0%nat →
  ∃ s, s ∈ student_table st ∧ Student.grade_level s = g ∧ Student.gender s = x.
Proof.
  unfold count_by_gender. destruct (filter _ _) as [|[s o] l] eqn:E; [done|]. intros _.
  assert ((s, o) ∈ filter (λ so, Student.grade_level so.1 = g
                                 ∧ Student.gender so.1 = x)
                      (student_join_offense st)) as Hin by (rewrite E; left).
  apply list_elem_of_filter in Hin as [[Hg Hx] Hin].
  apply elem_of_student_join_offense in Hin as (Hs & _ & _). by exists s.
Qed.

(** After any history of requests, the dictionaries the two chart
    endpoints return have only the grades 11 and 12 as keys, and under
    each grade exactly the keys warning, minor and major (by type) or
    Male and Female (by gender): the forms let no other value in. *)
Theorem charts_have_exactly_the_expected_keys (rs : list request) :
  (∀ g inner,
     offenses_by_type_grade (history rs) !! g = Some inner →
     g ∈ StudentForm.grade_level_choices
     ∧ ∀ k, is_Some (inner !! k) ↔ k ∈ OffenseForm.offense_type_choices)
  ∧ (∀ g inner,
       offenses_by_gender_grade (history rs) !! g = Some inner →
       g ∈ StudentForm.grade_level_choices
       ∧ ∀ k, is_Some (inner !! k) ↔ k ∈ StudentForm.gender_choices).
Proof.
  destruct (history_well_formed rs) as (_ & _ & _ & Hvs & Hvo).
  rewrite Forall_forall in Hvs. rewrite Forall_forall in Hvo.
  split; intros g inner Hg.
  - split.
    + assert (grade_has_offense (history rs) g) as (s & o & Hs & _ & _ & <-)
        by (apply type_grade_keys; by eexists).
      by destruct (Hvs s Hs) as (_ & _ & _ & Hgrade & _).
    + intros k. rewrite (type_grade_cell _ _ _ k Hg).
      destruct (decide (count_by_type (history rs) g k = 0%nat)) as [H0|Hpos].
      * split; [apply type_zeros_is_Some|].
        intros Hk. rewrite type_zeros_choices by done. by eexists.
      * split; [|by eexists]. intros _.
        destruct (count_by_type_joined _ _ _ Hpos) as (s & o & _ & Ho & _ & <-).
        by destruct (Hvo o Ho) as [Hty _].
  - split.
    + assert (grade_has_offense (history rs) g) as (s & o & Hs & _ & _ & <-)
        by (apply gender_grade_keys; by eexists).
      by destruct (Hvs s Hs) as (_ & _ & _ & Hgrade & _).
    + intros k. rewrite (gender_grade_cell _ _ _ k Hg).
      destruct (decide (count_by_gender (history rs) g k = 0%nat)) as [H0|Hpos].
      * split; [apply gender_zeros_is_Some|].
        intros Hk. rewrite gender_zeros_choices by done. by eexists.
      * split; [|by eexists]. intros _.
        destruct (count_by_gender_joined _ _ _ Hpos) as (s & Hs & _ & <-).
        by destruct (Hvs s Hs) as (_ & _ & Hgender & _).
Qed.

Lemma sum_counts_group_count (keys : list (string * string)) :
  sum_counts (group_count keys)
  = sum_list ((λ k, length (filter (λ k', k' = k) keys)) <$> remove_dups keys).
Proof.
  unfold sum_counts, group_count.
  induction (remove_dups keys) as [|k ks IH]; [done|]. cbn. by rewrite IH.
Qed.

Lemma sum_list_indicator {A} `{EqDecision A} (x : A) (ks : list A) :
  NoDup ks → x ∈ ks →
  sum_list ((λ k, if decide (x = k) then 1 else 0)%nat <$> ks) = 1%nat.
Proof.
  induction 1 as [|k ks Hk Hnd IH]; intros Hin; [by apply elem_of_nil in Hin|].
  cbn. destruct (decide (x = k)) as [->|Hne].
  - f_equal. clear IH Hin Hnd. induction ks as [|k' ks IH]; [done|].
    rewrite not_elem_of_cons in Hk. destruct Hk as [Hne Hk].
    cbn. rewrite decide_False by done. by apply IH.
  - apply elem_of_cons in Hin as [?|Hin]; [done|]. by apply IH.
Qed.

Lemma sum_list_counts {A} `{EqDecision A} (keys ks : list A) :
  NoDup ks → (∀ k, k ∈ keys → k ∈ ks) →
  sum_list ((λ k, length (filter (λ k', k' = k) keys)) <$> ks) = length keys.
Proof.
  intros Hnd. induction keys as [|x keys IH]; intros Hsub.
  - clear Hnd Hsub. induction ks as [|k ks IH]; [done|].
    cbn [fmap list_fmap sum_list]. by rewrite IH.
  - assert (sum_list ((λ k, length (filter (λ k', k' = k) (x :: keys))) <$> ks)
            = (sum_list ((λ k, if decide (x = k) then 1 else 0)%nat <$> ks)
               + sum_list ((λ k, length (filter (λ k', k' = k) keys)) <$> ks))%nat)
      as ->.
    { clear. induction ks as [|k ks IHks]; [done|].
      cbn [fmap list_fmap sum_list]. rewrite IHks, filter_cons.
      unfold id. destruct (decide (x = k)); cbn [length]; lia. }
    rewrite sum_list_indicator; [|done|apply Hsub; left].
    rewrite IH; [done|]. intros k Hk. apply Hsub. by right.
Qed.

Lemma group_count_total (keys : list (string * string)) :
  sum_counts (group_count keys) = length keys.
Proof.
  rewrite sum_counts_group_count. apply sum_list_counts.
  - apply NoDup_remove_dups.
  - intros k Hk. by rewrite elem_of_remove_dups.
Qed.

Lemma length_join_one (s : Student.t) (os : list Offense.t) :
  length (os ≫= λ o, if decide (Student.id s = Offense.student_id o)
                     then [(s, o)] else [])
  = length (filter (λ o, Offense.student_id o = Student.id s) os).
Proof.
  induction os as [|o os IH]; [done|].
  rewrite bind_cons, length_app, IH, filter_cons.
  destruct (decide (Student.id s = Offense.student_id o)),
    (decide (Offense.student_id o = Student.id s)); try congruence; done.
Qed.

Lemma length_join_all (ss : list Student.t) (os : list Offense.t) :
  NoDup (Student.id <$> ss) →
  length (ss ≫= λ s, os ≫= λ o, if decide (Student.id s = Offense.student_id o)
                                then [(s, o)] else [])
  = length (filter (λ o, Offense.student_id o ∈ Student.id <$> ss) os).
Proof.
  induction ss as [|s ss IH]; intros Hnd.
  - cbn. induction os as [|o os IHos]; [done|].
    rewrite filter_cons_False; [done|]. by intros ?%elem_of_nil.
  - rewrite fmap_cons in Hnd. apply NoDup_cons in Hnd as [Hfresh Hnd].
    rewrite bind_cons, length_app, length_join_one, IH by done.
    clear IH. rewrite fmap_cons. induction os as [|o os IHos]; [done|].
    rewrite !filter_cons.
    destruct (decide (Offense.student_id o = Student.id s)) as [Heq|Hne].
    + rewrite decide_False by (by rewrite Heq).
      rewrite decide_True by (rewrite Heq; left). cbn [length]. lia.
    + destruct (decide (Offense.student_id o ∈ Student.id <$> ss)) as [Hin|Hnin].
      * rewrite decide_True by by right. cbn [length]. lia.
      * rewrite decide_False; [done|]. by intros [?|?]%elem_of_cons.
Qed.

(** The counts of the grouped rows of either chart query add up to the
    number of joined rows, and after any history of requests to the number
    of stored offenses: each offense is counted once. *)
Theorem chart_counts_add_up :
  (∀ st,
     sum_counts (type_grade_results st) = length (student_join_offense st)
     ∧ sum_counts (gender_grade_results st) = length (student_join_offense st))
  ∧ (∀ rs,
       sum_counts (type_grade_results (history rs))
       = length (offense_table (history rs))
       ∧ sum_counts (gender_grade_results (history rs))
         = length (offense_table (history rs))).
Proof.
  assert (∀ st,
     sum_counts (type_grade_results st) = length (student_join_offense st)
     ∧ sum_counts (gender_grade_results st) = length (student_join_offense st)) as Hsum.
  { intros st. unfold type_grade_results, gender_grade_results.
    by rewrite !group_count_total, !length_fmap. }
  split; [exact Hsum|]. intros rs.
  destruct (Hsum (history rs)) as [-> ->].
  destruct (history_well_formed rs) as (Hri & Hs & _).
  assert (NoDup (Student.id <$> student_table (history rs))) as Hnd.
  { clear Hri. induction Hs as [|i ids _ IH Hall]; constructor; [|done].
    intros Hin. rewrite Forall_forall in Hall. specialize (Hall _ Hin). lia. }
  unfold student_join_offense. rewrite length_join_all by done.
  assert (filter (λ o, Offense.student_id o ∈ Student.id <$> student_table (history rs))
            (offense_table (history rs)) = offense_table (history rs)) as ->; [|done].
  revert Hri. unfold ref_integrity.
  generalize (Student.id <$> student_table (history rs)).
  induction (offense_table (history rs)) as [|o os IH]; intros ids Hri; [done|].
  rewrite filter_cons_True by (apply Hri; left).
  rewrite IH; [done|]. intros o' Ho'. apply Hri. by right.
Qed.

(** ** More on the calendar view *)

Lemma datetime_Some_inv y m dd x :
  datetime y m dd = Some x →
  x = Date y m dd ∧ MINYEAR ≤ y ≤ MAXYEAR ∧ 1 ≤ m ≤ 12
  ∧ 1 ≤ dd ≤ monthrange_ndays y m.
Proof.
  unfold datetime. destruct (andb _ _) eqn:E; [|done]. intros [= <-].
  rewrite !andb_true_iff, !Z.leb_le in E. split; [done|]. lia.
Qed.

(** A rendered calendar is the page of an existing student, a year within
    1..9999 and a month within 1..12. *)
Lemma calendar_view_inv now id year_arg month_arg st flashed c :
  calendar_view now id year_arg month_arg st = Render flashed (CalendarHtml c) →
  ∃ student,
    get_student st id = Some student
    ∧ MINYEAR ≤ default (date_year now) year_arg ≤ MAXYEAR
    ∧ 1 ≤ shown_month now month_arg ≤ 12
    ∧ c = calendar_page st student id (default (date_year now) year_arg)
            (shown_month now month_arg).
Proof.
  unfold calendar_view. destruct (get_student st id) as [student|]; [|done].
  fold (shown_month now month_arg).
  destruct (datetime _ _ 1) as [start_date|] eqn:Hstart; [|done].
  destruct (datetime _ _ (monthrange_ndays _ _)) as [end_date|] eqn:Hend; [|done].
  apply datetime_Some_inv in Hstart as (-> & Hy & Hm & _).
  apply datetime_Some_inv in Hend as (-> & _).
  intros [= <- <-]. by exists student.
Qed.

(** The outcomes of [calendar_view], for a valid clock reading: a 404
    when the id can be bound to the lookup (it fits a 64-bit integer) and
    no student has it; for a student that exists, an error exactly when
    the year (the parameter, or the current year when it is absent) is
    outside 1..9999, and otherwise the calendar page of that year and of
    the month shown.  In particular without parameters it shows the
    current month of the current year. *)
Theorem calendar_view_outcomes (now : date) (id : Z) (year_arg month_arg : option Z)
    (st : db) :
  datetime (date_year now) (date_month now) (date_day now) = Some now →
  (sqlite_int id = true → get_student st id = None →
   calendar_view now id year_arg month_arg st = NotFound)
  ∧ (∀ student,
       get_student st id = Some student →
       (¬ MINYEAR ≤ default (date_year now) year_arg ≤ MAXYEAR →
        calendar_view now id year_arg month_arg st = InternalError)
       ∧ (MINYEAR ≤ default (date_year now) year_arg ≤ MAXYEAR →
          calendar_view now id year_arg month_arg st
          = Render None
              (CalendarHtml
                 (calendar_page st student id (default (date_year now) year_arg)
                    (shown_month now month_arg))))
       ∧ calendar_view now id None None st
         = Render None
             (CalendarHtml
                (calendar_page st student id (date_year now) (date_month now))))
  ∧ 1 ≤ shown_month now month_arg ≤ 12.
Proof.
  intros Hnow. apply datetime_Some_inv in Hnow as (_ & Hy & Hm & _).
  assert (∀ ma, 1 ≤ shown_month now ma ≤ 12) as Hshown.
  { intros ma. unfold shown_month.
    destruct (orb _ _) eqn:E; [done|].
    rewrite orb_false_iff, Z.ltb_ge, Z.gtb_ltb, Z.ltb_ge in E. lia. }
  split; [|split; [|done]].
  - intros _ Hnone. unfold calendar_view. by rewrite Hnone.
  - intros student Hs. split; [|split].
    + intros Hout. unfold calendar_view. rewrite Hs.
      rewrite datetime_year_out_of_range; [done|lia].
    + intros Hin. by apply calendar_view_renders.
    + rewrite (calendar_view_renders _ _ _ _ _ student); try done.
      f_equal. f_equal. unfold shown_month. cbn [default]. unfold Datatypes.id.
      destruct (orb _ _); done.
Qed.

Lemma calendar_view_outcomes_witness :
  (sqlite_int 1 = true → get_student sample_db 1 = None →
   calendar_view sample_now 1 (Some 10000) None sample_db = NotFound)
  ∧ (∀ student,
       get_student sample_db 1 = Some student →
       (¬ MINYEAR ≤ default (date_year sample_now) (Some 10000) ≤ MAXYEAR →
        calendar_view sample_now 1 (Some 10000) None sample_db = InternalError)
       ∧ (MINYEAR ≤ default (date_year sample_now) (Some 10000) ≤ MAXYEAR →
          calendar_view sample_now 1 (Some 10000) None sample_db
          = Render None
              (CalendarHtml
                 (calendar_page sample_db student 1
                    (default (date_year sample_now) (Some 10000))
                    (shown_month sample_now None))))
       ∧ calendar_view sample_now 1 None None sample_db
         = Render None
             (CalendarHtml
                (calendar_page sample_db student 1 (date_year sample_now)
                   (date_month sample_now))))
  ∧ 1 ≤ shown_month sample_now None ≤ 12.
Proof. apply (calendar_view_outcomes sample_now 1 (Some 10000) None sample_db). reflexivity. Defined.

(** The navigation targets of a rendered calendar: the previous and the
    next month are months within 1..12, the year changes only across
    December and January, and asking for the next month (when its year is
    still within 1..9999) gives a calendar whose previous month is the one
    shown, and the same the other way round. *)
Theorem calendar_navigation now id year_arg month_arg st flashed c :
  calendar_view now id year_arg month_arg st = Render flashed (CalendarHtml c) →
  1 ≤ cal_prev_month c ≤ 12 ∧ 1 ≤ cal_next_month c ≤ 12
  ∧ (cal_month c = 1 → cal_prev_month c = 12 ∧ cal_prev_year c = cal_year c - 1)
  ∧ (cal_month c ≠ 1 →
     cal_prev_month c = cal_month c - 1 ∧ cal_prev_year c = cal_year c)
  ∧ (cal_month c = 12 → cal_next_month c = 1 ∧ cal_next_year c = cal_year c + 1)
  ∧ (cal_month c ≠ 12 →
     cal_next_month c = cal_month c + 1 ∧ cal_next_year c = cal_year c)
  ∧ (cal_next_year c ≤ MAXYEAR →
     ∃ c', calendar_view now id (Some (cal_next_year c)) (Some (cal_next_month c)) st
           = Render None (CalendarHtml c')
           ∧ cal_prev_year c' = cal_year c ∧ cal_prev_month c' = cal_month c)
  ∧ (MINYEAR ≤ cal_prev_year c →
     ∃ c', calendar_view now id (Some (cal_prev_year c)) (Some (cal_prev_month c)) st
           = Render None (CalendarHtml c')
           ∧ cal_next_year c' = cal_year c ∧ cal_next_month c' = cal_month c).
Proof.
  intros Hview. apply calendar_view_inv in Hview as (student & Hs & Hy & Hm & ->).
  set (y := default (date_year now) year_arg) in *.
  set (m := shown_month now month_arg) in *.
  unfold MINYEAR, MAXYEAR in *.
  cbn [calendar_page cal_prev_month cal_next_month cal_prev_year cal_next_year
       cal_year cal_month].
  destruct (Z.gtb_spec m 1) as [Hgt|Hle], (Z.ltb_spec m 12) as [Hlt|Hge];
    (repeat split; try lia);
    intros Hbound;
    (eexists; split;
     [rewrite (calendar_view_renders _ _ _ _ _ student);
      [reflexivity|done|cbn [default]; unfold Datatypes.id, MINYEAR, MAXYEAR; lia
      |rewrite shown_month_valid by lia; lia]
     |rewrite shown_month_valid by lia;
      cbn [calendar_page cal_prev_month cal_next_month cal_prev_year cal_next_year
           default];
      unfold Datatypes.id;
      repeat match goal with
             | |- context [?a >? ?b] => destruct (Z.gtb_spec a b)
             | |- context [?a <? ?b] => destruct (Z.ltb_spec a b)
             end; lia]).
Qed.

Lemma calendar_navigation_witness :
  1 ≤ cal_prev_month (calendar_page sample_db ana 1 2024 12) ≤ 12
  ∧ cal_next_month (calendar_page sample_db ana 1 2024 12) = 1
  ∧ cal_next_year (calendar_page sample_db ana 1 2024 12) = 2025.
Proof.
  destruct (calendar_navigation sample_now 1 (Some 2024) (Some 12) sample_db None
              (calendar_page sample_db ana 1 2024 12))
    as (Hprev & _ & _ & _ & Hnext & _); [reflexivity|].
  split; [exact Hprev|]. by apply Hnext.
Defined.

(** The entries of a rendered calendar: a day has an entry exactly when
    the student has an offense dated within the month shown on that day;
    the day is then a day of that month, and its details are those of
    these offenses (each once, whatever the order among offenses of one
    date). *)
Theorem calendar_entries_are_days_of_the_month
    now id year_arg month_arg st flashed c (dd : Z) :
  calendar_view now id year_arg month_arg st = Render flashed (CalendarHtml c) →
  match cal_offense_dates c !! dd with
  | Some ds =>
      ds ≠ [] ∧ 1 ≤ dd ≤ monthrange_ndays (cal_year c) (cal_month c)
      ∧ ds ≡ₚ detail <$> filter (λ o, Offense.student_id o = id
                                      ∧ in_month (cal_year c) (cal_month c)
                                          (Offense.date o)
                                      ∧ date_day (Offense.date o) = dd)
                           (offense_table st)
  | None =>
      filter (λ o, Offense.student_id o = id
                   ∧ in_month (cal_year c) (cal_month c) (Offense.date o)
                   ∧ date_day (Offense.date o) = dd)
        (offense_table st) = []
  end.
Proof.
  intros Hview. apply calendar_view_inv in Hview as (student & Hs & Hy & Hm & ->).
  set (y := default (date_year now) year_arg) in *.
  set (m := shown_month now month_arg) in *.
  cbn [calendar_page cal_offense_dates cal_year cal_month].
  rewrite append_detail_loop, lookup_empty. cbn [default].
  assert (filter (λ o, date_day (Offense.date o) = dd)
            (calendar_query st id (Date y m 1) (Date y m (monthrange_ndays y m)))
          ≡ₚ filter (λ o, Offense.student_id o = id
                          ∧ in_month y m (Offense.date o)
                          ∧ date_day (Offense.date o) = dd)
               (offense_table st)) as Hperm.
  { unfold calendar_query. rewrite order_by_Permutation, list_filter_filter.
    erewrite list_filter_iff; [reflexivity|]. intros o. cbn.
    rewrite <- in_month_bounds. tauto. }
  destruct (filter _ (calendar_query _ _ _ _)) as [|o os] eqn:E.
  - cbn. symmetry in Hperm. by apply Permutation_nil_r in Hperm.
  - cbn [fmap list_fmap]. split; [done|]. split.
    + assert (o ∈ filter (λ o, date_day (Offense.date o) = dd)
                    (calendar_query st id (Date y m 1)
                       (Date y m (monthrange_ndays y m)))) as Ho
        by (rewrite E; left).
      apply list_elem_of_filter in Ho as [<- Ho]. unfold calendar_query in Ho.
      rewrite elem_of_order_by in Ho.
      apply list_elem_of_filter in Ho as [(_ & H1 & H2) _].
      destruct (proj1 (in_month_bounds y m (Offense.date o)) (conj H1 H2))
        as (_ & _ & Hd). exact Hd.
    + unfold Datatypes.id. change (detail o :: (detail <$> os)) with (detail <$> o :: os).
      by rewrite Hperm.
Qed.

Lemma calendar_entries_are_days_of_the_month_witness :
  match cal_offense_dates (calendar_page sample_db ana 1 2024 3) !! 15 with
  | Some ds =>
      ds ≠ [] ∧ 1 ≤ 15 ≤ monthrange_ndays 2024 3
      ∧ ds ≡ₚ detail <$> filter (λ o, Offense.student_id o = 1
                                      ∧ in_month 2024 3 (Offense.date o)
                                      ∧ date_day (Offense.date o) = 15)
                           (offense_table sample_db)
  | None =>
      filter (λ o, Offense.student_id o = 1
                   ∧ in_month 2024 3 (Offense.date o)
                   ∧ date_day (Offense.date o) = 15)
        (offense_table sample_db) = []
  end.
Proof.
  apply (calendar_entries_are_days_of_the_month sample_now 1 (Some 2024) (Some 3)
           sample_db None (calendar_page sample_db ana 1 2024 3) 15).
  reflexivity.
Defined.

(** ** More on the account store *)

Lemma user_by_email_Some st e u :
  user_by_email st e = Some u → u ∈ user_table st ∧ User.email u = e.
Proof.
  unfold user_by_email. intros H.
  apply head_Some_elem_of, list_elem_of_filter in H. tauto.
Qed.

Section AccountFrame.
Variable email_ok : string -> bool.
Variable hash_method : string.
Variable digest : string -> string -> string -> string.

Local Abbreviation do_register := (register email_ok hash_method digest).
Local Abbreviation do_login := (login email_ok digest).
Local Abbreviation gen_hash := (generate_password_hash hash_method digest).
Local Abbreviation do_registrations := (registrations email_ok hash_method digest).

(** What [register] does to the database: nothing, or one more account
    with the email of a form that validated, an email not yet stored and
    a fresh id. *)
Lemma register_db_cases salt f st :
  (do_register salt f st).2 = st
  ∨ (validate_register email_ok f = true
     ∧ (RegisterForm.email f ∉ User.email <$> user_table st)
     ∧ (do_register salt f st).2
       = Db (user_table st
               ++ [User.mk (next_rowid (User.id <$> user_table st))
                     (RegisterForm.email f)
                     (gen_hash salt (RegisterForm.password f))])
            (student_table st) (offense_table st)).
Proof.
  unfold register.
  destruct (validate_register email_ok f) eqn:Hv; [|by left].
  destruct (user_by_email st (RegisterForm.email f)) as [u|] eqn:E; [by left|].
  apply user_by_email_None in E. right. split; [done|]. split; [done|].
  unfold commit. cbn [transaction exec mbind option_bind].
  by rewrite decide_False.
Qed.

(** [login] lets in only an account that is stored under the email of the
    form and whose hash checks against the password of the form, and only
    through a form that validates; with an email that is not stored it
    answers a valid form with the invalid-credentials message. *)
Theorem login_only_with_checked_password :
  (∀ f st u endpoint,
     do_login f st = LoginAndRedirect u endpoint →
     endpoint = "students"
     ∧ validate_login email_ok f = true
     ∧ u ∈ user_table st
     ∧ User.email u = LoginForm.email f
     ∧ check_password digest u (LoginForm.password f) = true)
  ∧ (∀ f st,
       LoginForm.email f ∉ User.email <$> user_table st →
       do_login f st = if validate_login email_ok f then invalid_credentials
                       else Render None LoginHtml).
Proof.
  split.
  - intros f st u endpoint. unfold login.
    destruct (validate_login email_ok f); [|done].
    destruct (user_by_email st (LoginForm.email f)) as [u'|] eqn:E; [|done].
    destruct (check_password digest u' (LoginForm.password f)) eqn:Hc; [|done].
    intros [= <- <-]. apply user_by_email_Some in E as [Hin He]. done.
  - intros f st Hnin. unfold login.
    destruct (validate_login email_ok f); [|done].
    apply user_by_email_None in Hnin. by rewrite Hnin.
Qed.

(** A registration, whether it succeeds or not, changes no login under
    another email and touches neither students nor offenses. *)
Theorem register_leaves_other_logins (salt : string) (f : RegisterForm.t)
    (g : LoginForm.t) (st : db) :
  LoginForm.email g ≠ RegisterForm.email f →
  do_login g (do_register salt f st).2 = do_login g st
  ∧ student_table (do_register salt f st).2 = student_table st
  ∧ offense_table (do_register salt f st).2 = offense_table st.
Proof.
  intros Hne. destruct (register_db_cases salt f st) as [->|(_ & _ & ->)]; [done|].
  split; [|done]. unfold login.
  destruct (validate_login email_ok g); [|done].
  assert (user_by_email
            (Db (user_table st
                   ++ [User.mk (next_rowid (User.id <$> user_table st))
                         (RegisterForm.email f)
                         (gen_hash salt (RegisterForm.password f))])
               (student_table st) (offense_table st)) (LoginForm.email g)
          = user_by_email st (LoginForm.email g)) as ->; [|done].
  unfold user_by_email. cbn [user_table].
  rewrite filter_app, filter_cons_False by (cbn; congruence).
  by rewrite filter_nil, app_nil_r.
Qed.

Lemma registrations_snoc rs r st :
  do_registrations (rs ++ [r]) st = (do_register r.1 r.2 (do_registrations rs st)).2.
Proof. unfold registrations. by rewrite foldl_app. Qed.

Lemma registrations_ascending rs :
  StronglySorted Z.lt (User.id <$> user_table (do_registrations rs empty_db))
  ∧ NoDup (User.email <$> user_table (do_registrations rs empty_db))
  ∧ Forall (λ u, validate_register email_ok
                   (RegisterForm.mk (User.email u) "x") = true)
      (user_table (do_registrations rs empty_db)).
Proof.
  induction rs as [|r rs (IHid & IHem & IHv)] using rev_ind.
  - repeat split; constructor.
  - rewrite registrations_snoc.
    destruct (register_db_cases r.1 r.2 (do_registrations rs empty_db))
      as [->|(Hv & Hfresh & ->)]; [done|].
    cbn [user_table]. rewrite !fmap_app. repeat split.
    + by apply ascending_snoc.
    + apply NoDup_app. repeat split; [done| |apply NoDup_singleton].
      intros e He ->%list_elem_of_singleton. done.
    + apply Forall_app. split; [done|]. constructor; [|constructor].
      cbn. unfold validate_register in *. cbn.
      apply andb_prop in Hv as [-> _]. done.
Qed.

(** After any series of registrations on a fresh database: no two
    accounts share an email or an id, every stored email passed the
    validators of the form, and every stored account is the one found by
    its email (as [login] looks it up) and by its id (as [load_user]
    does). *)
Theorem registrations_keep_accounts_unique (rs : list (string * RegisterForm.t)) :
  NoDup (User.email <$> user_table (do_registrations rs empty_db))
  ∧ NoDup (User.id <$> user_table (do_registrations rs empty_db))
  ∧ ∀ u, u ∈ user_table (do_registrations rs empty_db) →
         user_by_email (do_registrations rs empty_db) (User.email u) = Some u
         ∧ load_user (do_registrations rs empty_db) (User.id u) = Some u
         ∧ data_required (User.email u) = true
         ∧ email_ok (User.email u) = true.
Proof.
  destruct (registrations_ascending rs) as (Hid & Hem & Hv).
  split; [done|]. split.
  { clear Hem Hv. induction Hid as [|i ids _ IH Hall]; constructor; [|done].
    intros Hin. rewrite Forall_forall in Hall. specialize (Hall _ Hin). lia. }
  intros u Hu. split; [|split].
  - unfold user_by_email. clear Hid Hv.
    induction (user_table (do_registrations rs empty_db)) as [|v l IH];
      [by apply elem_of_nil in Hu|].
    rewrite fmap_cons in Hem. apply NoDup_cons in Hem as [Hfresh Hem].
    apply elem_of_cons in Hu as [->|Hu].
    + by rewrite filter_cons_True.
    + rewrite filter_cons_False; [by apply IH|].
      intros Heq. apply Hfresh. rewrite Heq. by apply list_elem_of_fmap_2.
  - unfold load_user. by apply (ascending_lookup User.id).
  - rewrite Forall_forall in Hv. specialize (Hv u Hu).
    unfold validate_register in Hv. cbn in Hv.
    apply andb_prop in Hv as [Hv _]. by apply andb_prop in Hv.
Qed.

End AccountFrame.

Lemma login_only_with_checked_password_witness :
  login any_email sample_digest (LoginForm.mk "nobody@school.edu" "s3cret")
    sample_registered = invalid_credentials.
Proof.
  rewrite (proj2 (login_only_with_checked_password any_email sample_digest)).
  - reflexivity.
  - vm_compute. intros H. apply elem_of_cons in H as [H|H]; [discriminate H|].
    by apply elem_of_nil in H.
Defined.

Lemma register_leaves_other_logins_witness :
  login any_email sample_digest (LoginForm.mk "staff@school.edu" "s3cret")
    (register any_email sample_method sample_digest "other salt"
       (RegisterForm.mk "head@school.edu" "pa55word") sample_registered).2
  = login any_email sample_digest (LoginForm.mk "staff@school.edu" "s3cret")
      sample_registered.
Proof.
  apply (register_leaves_other_logins any_email sample_method sample_digest
           "other salt" (RegisterForm.mk "head@school.edu" "pa55word")
           (LoginForm.mk "staff@school.edu" "s3cret") sample_registered).
  discriminate.
Defined.

(** ** More on the search *)

Lemma truthy_lower (t : string) : truthy (lower t) = truthy t.
Proof. by destruct t. Qed.

Lemma search_filter_lower (p1 p2 : string) (os : Offense.t * Student.t) :
  lower p1 = lower p2 → search_filter p1 os = search_filter p2 os.
Proof.
  intros H. unfold search_filter, ilike_null, ilike. rewrite H.
  by destruct (Offense.description os.1).
Qed.

Lemma all_offenses_query_lower (t1 t2 : string) (st : db) :
  lower t1 = lower t2 → all_offenses_query t1 st = all_offenses_query t2 st.
Proof.
  intros H. unfold all_offenses_query.
  assert (truthy t1 = truthy t2) as ->
    by by rewrite <- (truthy_lower t1), <- (truthy_lower t2), H.
  destruct (truthy t2); [|done]. do 2 f_equal.
  apply list_filter_iff. intros os.
  rewrite (search_filter_lower _ ("%" +:+ t2 +:+ "%")); [done|].
  by rewrite !lower_app, H.
Qed.

(** The search does not depend on the case of the term, nor on the
    whitespace around it: two terms that are equal once trimmed and put in
    lower case give the same page. *)
Theorem search_ignores_case_of_term (s1 s2 : string) (page_arg : option Z) (st : db) :
  lower (strip s1) = lower (strip s2) →
  page_items (all_offenses s1 page_arg st) = page_items (all_offenses s2 page_arg st).
Proof.
  intros H. rewrite !all_offenses_cases, (all_offenses_query_lower _ _ st H).
  by destruct (page_fits page_arg).
Qed.

Lemma search_ignores_case_of_term_witness :
  page_items (all_offenses "  SMITH " (Some 1) sample_db)
  = page_items (all_offenses "smith" (Some 1) sample_db).
Proof.
  apply (search_ignores_case_of_term "  SMITH " "smith" (Some 1) sample_db).
  reflexivity.
Defined.

Lemma elem_of_all_offenses_query (t : string) (st : db) (o : Offense.t) :
  o ∈ all_offenses_query t st
  ↔ ∃ s, o ∈ offense_table st ∧ s ∈ student_table st
         ∧ Offense.student_id o = Student.id s
         ∧ (truthy t = true → search_filter ("%" +:+ t +:+ "%") (o, s) = true).
Proof.
  unfold all_offenses_query. rewrite elem_of_order_by, list_elem_of_fmap.
  destruct (truthy t); split.
  - intros ([o' s] & -> & Hin). apply list_elem_of_filter in Hin as [Hm Hin].
    apply elem_of_offense_join_student in Hin as (Ho & Hs & Hid). by exists s.
  - intros (s & Ho & Hs & Hid & Hm). exists (o, s). split; [done|].
    apply list_elem_of_filter. split; [by apply Hm|].
    by apply elem_of_offense_join_student.
  - intros ([o' s] & -> & Hin).
    apply elem_of_offense_join_student in Hin as (Ho & Hs & Hid). by exists s.
  - intros (s & Ho & Hs & Hid & _). exists (o, s). split; [done|].
    by apply elem_of_offense_join_student.
Qed.

(** After [delete_student] of an existing student, the search (for any
    term) finds exactly what it found before except that student's
    offenses, the calendar of the student is a 404, and the student is
    gone from the roster; after [delete_offense] of an existing offense,
    the search finds exactly what it found before except that offense. *)
Theorem deleted_rows_leave_the_views :
  (∀ id st,
     is_Some (get_student st id) →
     (∀ t o, o ∈ all_offenses_query t (delete_student id st).2
             ↔ o ∈ all_offenses_query t st ∧ Offense.student_id o ≠ id)
     ∧ (∀ now year_arg month_arg,
          calendar_view now id year_arg month_arg (delete_student id st).2 = NotFound)
     ∧ (∀ s, s ∈ student_table (delete_student id st).2
             ↔ s ∈ student_table st ∧ Student.id s ≠ id))
  ∧ (∀ id st,
       is_Some (get_offense st id) →
       ∀ t o, o ∈ all_offenses_query t (delete_offense id st).2
              ↔ o ∈ all_offenses_query t st ∧ Offense.id o ≠ id).
Proof.
  split.
  - intros id st [student Hs].
    assert ((delete_student id st).2
            = Db (user_table st)
                (filter (λ s, Student.id s ≠ id) (student_table st))
                (filter (λ o, Offense.student_id o ≠ id) (offense_table st))) as ->.
    { unfold delete_student, commit. rewrite Hs.
      by destruct (delete_student_states st id) as [_ ->]. }
    split; [|split].
    + intros t o. rewrite !elem_of_all_offenses_query. cbn [offense_table student_table].
      split.
      * intros (s & Ho & Hs' & Hid & Hm).
        apply list_elem_of_filter in Ho as [Hne Ho].
        apply list_elem_of_filter in Hs' as [_ Hs'].
        split; [by exists s|done].
      * intros [(s & Ho & Hs' & Hid & Hm) Hne]. exists s.
        repeat split; try done; apply list_elem_of_filter; split; try done.
        congruence.
    + intros now ya ma. unfold calendar_view, get_student. cbn [student_table].
      by rewrite filter_ne_no_id.
    + intros s. cbn [student_table]. rewrite list_elem_of_filter. tauto.
  - intros id st [offense Ho] t o.
    assert ((delete_offense id st).2
            = Db (user_table st) (student_table st)
                (filter (λ o, Offense.id o ≠ id) (offense_table st))) as ->.
    { unfold delete_offense. by rewrite Ho. }
    rewrite !elem_of_all_offenses_query. cbn [offense_table student_table]. split.
    + intros (s & Ho' & Hs' & Hid & Hm).
      apply list_elem_of_filter in Ho' as [Hne Ho'].
      split; [by exists s|done].
    + intros [(s & Ho' & Hs' & Hid & Hm) Hne]. exists s.
      repeat split; try done. by apply list_elem_of_filter.
Qed.

Lemma deleted_rows_leave_the_views_witness :
  fight ∈ all_offenses_query "fight" (delete_offense 2 sample_db).2
  ↔ fight ∈ all_offenses_query "fight" sample_db ∧ Offense.id fight ≠ 2.
Proof.
  apply (proj2 deleted_rows_leave_the_views 2 sample_db). vm_compute. eauto.
Defined.
